(** * Record store of the CRM assistant: a shallow embedding of [crm_logic.py]

    The development models [CRMAgent] ([load_data], [save_data],
    [add_customer], [update_customer], [search_records], [delete_customer])
    over a small model of the pandas objects the code manipulates:

    - a cell is a [value] (missing, integer, float, text, boolean);
    - a column is a [series]: a dtype and its cells;
    - a [frame] is an ordered list of named columns with a row count;
    - the file system is a finite association from paths to file contents.

    Python text is modelled by [string], a sequence of characters whose
    code points are below 256; case folding and white space are those of
    Python on these characters.  A float64 is modelled by a finite decimal
    [mant * 10^-scale]: the amounts a user types; binary rounding, infinities
    and exponent notation are outside the model. *)

From Stdlib Require Import ZArith List String Ascii Bool Lia.
From Stdlib Require Import DecimalString.
Import ListNotations.

Local Open Scope string_scope.
Local Open Scope Z_scope.

(* ------------------------------------------------------------------ *)
(** ** Text helpers                                                    *)
(* ------------------------------------------------------------------ *)

Module Text.

(** the characters with a lower-case form: [A]-[Z], and the accented
    capitals at code points 192 to 222, the multiplication sign (215)
    excepted *)
Definition is_upper (c : ascii) : bool :=
  let n := nat_of_ascii c in
  ((Nat.leb 65 n && Nat.leb n 90)
   || (Nat.leb 192 n && Nat.leb n 222 && negb (Nat.eqb n 215)))%bool.

Definition lower_char (c : ascii) : ascii :=
  if is_upper c then ascii_of_nat (nat_of_ascii c + 32) else c.

(** [str.lower()] *)
Fixpoint lower (s : string) : string :=
  match s with
  | EmptyString => EmptyString
  | String c r => String (lower_char c) (lower r)
  end.

(** [p] is a prefix of [s] *)
Fixpoint prefixb (p s : string) : bool :=
  match p, s with
  | EmptyString, _ => true
  | String a p', String b s' => (Ascii.eqb a b && prefixb p' s')%bool
  | String _ _, EmptyString => false
  end.

(** [q in s] for Python strings: [q] occurs in [s] as a contiguous block *)
Fixpoint contains (q s : string) : bool :=
  match s with
  | EmptyString => prefixb q EmptyString
  | String _ r => (prefixb q s || contains q r)%bool
  end.

(** Propositional reading of [contains]. *)
Definition substring_of (q s : string) : Prop :=
  exists pre post, s = pre ++ q ++ post.

Fixpoint mem (x : string) (l : list string) : bool :=
  match l with
  | [] => false
  | y :: r => (String.eqb x y || mem x r)%bool
  end.

Definition is_digit (c : ascii) : bool :=
  let n := nat_of_ascii c in (Nat.leb 48 n && Nat.leb n 57)%bool.

Fixpoint all_digits (s : string) : bool :=
  match s with
  | EmptyString => true
  | String c r => (is_digit c && all_digits r)%bool
  end.

Definition digit_val (c : ascii) : Z := Z.of_nat (nat_of_ascii c) - 48.

Fixpoint digits_val (acc : Z) (s : string) : Z :=
  match s with
  | EmptyString => acc
  | String c r => digits_val (10 * acc + digit_val c) r
  end.

(** [str(n)] for a Python int *)
Definition of_Z (z : Z) : string := NilZero.string_of_int (Z.to_int z).

(** [str(n)] for a natural number *)
Definition of_nat (n : nat) : string := of_Z (Z.of_nat n).

Fixpoint zeros (n : nat) : string :=
  match n with O => EmptyString | S k => String "0" (zeros k) end.

(** [sep.join(l)] *)
Fixpoint join (sep : string) (l : list string) : string :=
  match l with
  | [] => EmptyString
  | [x] => x
  | x :: r => x ++ sep ++ join sep r
  end.

End Text.

(* ------------------------------------------------------------------ *)
(** ** Cells, dtypes, columns, tables                                  *)
(* ------------------------------------------------------------------ *)

(** A float64, as the finite decimal [fmant * 10^-fscale]. *)
Record float64 := mkFloat { fmant : Z; fscale : nat }.

(** strips the trailing zeros of the fractional part: [1.50] is [1.5] *)
Fixpoint float_norm (m : Z) (e : nat) : float64 :=
  match e with
  | O => mkFloat m O
  | S k => if Z.eqb (m mod 10) 0 then float_norm (m / 10) k else mkFloat m e
  end.

Definition float_of_Z (z : Z) : float64 := mkFloat z O.

(** [repr(x)]: integral part, a point, the fractional digits ([100.0], [2.5]) *)
Definition float_repr (f : float64) : string :=
  let p := 10 ^ Z.of_nat (fscale f) in
  let a := Z.abs (fmant f) in
  let frac := Text.of_Z (a mod p) in
  let sign := if fmant f <? 0 then "-" else EmptyString in
  let digits :=
    match fscale f with
    | O => "0"
    | S _ => Text.zeros (fscale f - String.length frac)%nat ++ frac
    end in
  sign ++ Text.of_Z (a / p) ++ "." ++ digits.

(** A cell of a table; also a value of a field dictionary, where [VNa]
    stands for [None]. *)
Inductive value :=
| VNa
| VInt (z : Z)
| VFloat (f : float64)
| VStr (s : string)
| VBool (b : bool).

(** The dtypes the program meets: the three it declares ([Int64],
    [float64], [object]) and the two others [read_csv] infers. *)
Inductive dtype := DInt64 | DFloat64 | DObject | Dint64 | Dbool.

Record series := mkSeries { s_dtype : dtype; s_cells : list value }.

(** A DataFrame: the number of rows of its index and its named columns in
    order.  Row labels are positional throughout the program (every table
    comes from [read_csv] or [reset_index]), so they are not represented. *)
Record frame := mkFrame { nrows : nat; cols : list (string * series) }.

Definition columns (d : frame) : list string := map fst (cols d).

Definition value_eqb (a b : value) : bool :=
  match a, b with
  | VNa, VNa => true
  | VInt x, VInt y => Z.eqb x y
  | VFloat x, VFloat y => (Z.eqb (fmant x) (fmant y) && Nat.eqb (fscale x) (fscale y))%bool
  | VStr x, VStr y => String.eqb x y
  | VBool x, VBool y => Bool.eqb x y
  | _, _ => false
  end.

Definition dtype_eqb (a b : dtype) : bool :=
  match a, b with
  | DInt64, DInt64 | DFloat64, DFloat64 | DObject, DObject
  | Dint64, Dint64 | Dbool, Dbool => true
  | _, _ => false
  end.

Definition is_na (v : value) : bool :=
  match v with VNa => true | _ => false end.

(** [name in data.columns] *)
Definition has_column (d : frame) (name : string) : bool :=
  Text.mem name (columns d).

(** [data[name]]; [None] is Python's [KeyError] *)
Fixpoint assoc {A} (name : string) (l : list (string * A)) : option A :=
  match l with
  | [] => None
  | (k, v) :: r => if String.eqb name k then Some v else assoc name r
  end.

Definition get_column (d : frame) (name : string) : option series :=
  assoc name (cols d).

(** cell of column [name] at row [i] *)
Definition cell (d : frame) (name : string) (i : nat) : option value :=
  match get_column d name with
  | Some s => nth_error (s_cells s) i
  | None => None
  end.

(** dtype of column [name] *)
Definition column_dtype (d : frame) (name : string) : option dtype :=
  option_map s_dtype (get_column d name).

Fixpoint replace_assoc {A} (name : string) (v : A) (l : list (string * A))
  : list (string * A) :=
  match l with
  | [] => []
  | (k, x) :: r =>
      (k, if String.eqb name k then v else x) :: replace_assoc name v r
  end.

(** [data[name] = s]: replaces the column in place when it exists, appends
    it as the last column otherwise *)
Definition set_column (d : frame) (name : string) (s : series) : frame :=
  if has_column d name
  then mkFrame (nrows d) (replace_assoc name s (cols d))
  else mkFrame (nrows d) (cols d ++ [(name, s)]).

(** [data.drop(columns=names, errors='ignore')] *)
Definition drop_columns (d : frame) (names : list string) : frame :=
  mkFrame (nrows d)
          (filter (fun kv => negb (Text.mem (fst kv) names)) (cols d)).

(** [pd.Series(dtype=dt)] once aligned on a table of [n] rows: the series
    is empty, so every row receives a missing value *)
Definition empty_series (dt : dtype) (n : nat) : series :=
  mkSeries dt (repeat VNa n).

(** [pd.DataFrame(columns=names)]: no row, untyped ([object]) columns *)
Definition empty_frame (names : list string) : frame :=
  mkFrame O (map (fun n => (n, mkSeries DObject [])) names).

(* ------------------------------------------------------------------ *)
(** ** Exceptions                                                      *)
(* ------------------------------------------------------------------ *)

(** A raised Python exception: its class and its message. *)
Inductive exn :=
| KeyError (key : string)
| TypeError (msg : string)
| ValueError (msg : string)
| AttributeError (msg : string)
| OSError (msg : string)
| ParserError (msg : string)
| OverflowError (msg : string).

(** [str(e)] *)
Definition exn_str (e : exn) : string :=
  match e with
  | KeyError k => "'" ++ k ++ "'"
  | TypeError m | ValueError m | AttributeError m
  | OSError m | ParserError m | OverflowError m => m
  end.

(** A computation that returns a value or raises. *)
Definition result (A : Type) : Type := exn + A.

Definition ret {A} (a : A) : result A := inr a.
Definition raise {A} (e : exn) : result A := inl e.

Definition bind {A B} (m : result A) (k : A -> result B) : result B :=
  match m with
  | inl e => inl e
  | inr a => k a
  end.

Notation "x <- m ;; k" := (bind m (fun x => k))
  (at level 61, m at next level, right associativity).

(** maps a raising function over a list, stopping at the first exception *)
Fixpoint mapM {A B} (f : A -> result B) (l : list A) : result (list B) :=
  match l with
  | [] => ret []
  | a :: r => b <- f a ;; bs <- mapM f r ;; ret (b :: bs)
  end.

(* ------------------------------------------------------------------ *)
(** ** The pandas primitives [load_data] relies on                     *)
(* ------------------------------------------------------------------ *)

(** [int(s)] on text in decimal notation: an optional sign and digits *)
Definition parse_int (s : string) : option Z :=
  let unsigned (t : string) :=
    match t with
    | EmptyString => None
    | _ => if Text.all_digits t then Some (Text.digits_val 0 t) else None
    end in
  match s with
  | String "-" t => option_map Z.opp (unsigned t)
  | String "+" t => unsigned t
  | _ => unsigned s
  end.

(** splits at the first occurrence of [c]: the part before it and, when
    [c] occurs, the part after it *)
Fixpoint split_first (c : ascii) (s : string) : string * option string :=
  match s with
  | EmptyString => (EmptyString, None)
  | String a r =>
      if Ascii.eqb a c then (EmptyString, Some r)
      else let '(h, t) := split_first c r in (String a h, t)
  end.

(** [float(s)] on text in decimal notation: an optional sign, digits, and
    optionally a point and more digits *)
Definition parse_float (s : string) : option float64 :=
  let unsigned (t : string) :=
    let '(ip, fp) := split_first "." t in
    let fp := match fp with Some f => f | None => EmptyString end in
    if (Text.all_digits ip && Text.all_digits fp
        && negb (Nat.eqb (String.length ip + String.length fp) 0))%bool
    then Some (float_norm (Text.digits_val 0 (ip ++ fp)) (String.length fp))
    else None in
  let neg (f : float64) := mkFloat (- fmant f) (fscale f) in
  match s with
  | String "-" t => option_map neg (unsigned t)
  | String "+" t => unsigned t
  | _ => unsigned s
  end.

(** the integer a float equals, when it is integral *)
Definition float_to_Z (f : float64) : option Z :=
  match float_norm (fmant f) (fscale f) with
  | mkFloat m O => Some m
  | _ => None
  end.

(** the integers a 64-bit column holds *)
Definition in_int64 (z : Z) : bool :=
  ((- 2 ^ 63 <=? z) && (z <? 2 ^ 63))%bool.

(** two's-complement wrap-around of 64-bit arithmetic *)
Definition wrap_int64 (z : Z) : Z := (z + 2 ^ 63) mod 2 ^ 64 - 2 ^ 63.

(** an integer as a 64-bit column takes it *)
Definition to_int64 (z : Z) : result value :=
  if in_int64 z then ret (VInt z)
  else raise (OverflowError "Python int too large to convert to C long").

(** Conversion of one cell by [astype(dt)]. *)
Definition cast_cell (dt : dtype) (v : value) : result value :=
  match dt with
  | DObject => ret v
  | DFloat64 =>
      match v with
      | VNa => ret VNa
      | VInt z => ret (VFloat (float_of_Z z))
      | VFloat f => ret (VFloat f)
      | VBool b => ret (VFloat (float_of_Z (if b then 1 else 0)))
      | VStr s =>
          match parse_float s with
          | Some f => ret (VFloat f)
          | None => raise (ValueError ("could not convert string to float: '" ++ s ++ "'"))
          end
      end
  | DInt64 | Dint64 =>
      match v with
      | VNa =>
          match dt with
          | DInt64 => ret VNa
          | _ => raise (ValueError "cannot convert NA to integer")
          end
      | VInt z => to_int64 z
      | VFloat f =>
          match float_to_Z f with
          | Some z => to_int64 z
          | None => raise (TypeError "cannot safely cast non-equivalent float64 to int64")
          end
      | VBool b => ret (VInt (if b then 1 else 0))
      | VStr s =>
          match parse_int s with
          | Some z => to_int64 z
          | None => raise (ValueError ("invalid literal for int() with base 10: '" ++ s ++ "'"))
          end
      end
  | Dbool =>
      match v with
      | VNa => ret (VBool true)
      | VInt z => ret (VBool (negb (Z.eqb z 0)))
      | VFloat f => ret (VBool (negb (Z.eqb (fmant f) 0)))
      | VStr s => ret (VBool (negb (String.eqb s EmptyString)))
      | VBool b => ret (VBool b)
      end
  end.

(** [s.astype(dt)]: every cell is converted, or the call raises *)
Definition astype (dt : dtype) (s : series) : result series :=
  cells <- mapM (cast_cell dt) (s_cells s) ;;
  ret (mkSeries dt cells).

Definition is_str (v : value) : bool :=
  match v with VStr _ => true | _ => false end.

(** The [.str] accessor exists on an [object] column holding text (or
    nothing at all); any other column raises [AttributeError]. *)
Definition str_accessor (s : series) : result (list value) :=
  if (dtype_eqb (s_dtype s) DObject
      && (existsb is_str (s_cells s) || forallb is_na (s_cells s)))%bool
  then ret (s_cells s)
  else raise (AttributeError "Can only use .str accessor with string values!").

(** [.str.split(' ', n=1)] followed by [.str[0]]: text before the first
    space; a cell that is not text gives a missing value *)
Definition name_first (v : value) : value :=
  match v with
  | VStr s => VStr (fst (split_first " " s))
  | _ => VNa
  end.

(** [.str.split(' ', n=1)] followed by [.str[1].fillna('')]: text after
    the first space, the empty text when there is none *)
Definition name_last (v : value) : value :=
  match v with
  | VStr s =>
      match snd (split_first " " s) with
      | Some r => VStr r
      | None => VStr EmptyString
      end
  | _ => VStr EmptyString
  end.

(** keeps the elements of [l] whose flag in [mask] is set *)
Fixpoint filter_mask {A} (mask : list bool) (l : list A) : list A :=
  match mask, l with
  | b :: m, x :: r => if b then x :: filter_mask m r else filter_mask m r
  | _, _ => []
  end.

(** [data[mask]]: the rows whose flag is set, in order *)
Definition select_rows (d : frame) (mask : list bool) : frame :=
  mkFrame (List.length (filter (fun b => b) mask))
          (map (fun kv => (fst kv, mkSeries (s_dtype (snd kv))
                                            (filter_mask mask (s_cells (snd kv)))))
               (cols d)).

(** row [i] holds a value in some column *)
Definition row_has_value (d : frame) (i : nat) : bool :=
  existsb (fun kv => negb (is_na (nth i (s_cells (snd kv)) VNa))) (cols d).

(** [data.dropna(how="all").reset_index(drop=True)] *)
Definition dropna_all (d : frame) : frame :=
  select_rows d (map (row_has_value d) (seq 0 (nrows d))).

(* ------------------------------------------------------------------ *)
(** ** The delimited text format                                       *)
(* ------------------------------------------------------------------ *)

(** [to_csv] and [read_csv] with [;] as delimiter, for the files this
    program writes and reads: a header line, one line per row, fields
    quoted with double quotes when they must be.  Of [read_csv]'s type
    inference the model has the signed 64-bit decimal integers, the
    decimal floats, the booleans and the default missing-value markers; an
    integer beyond the signed 64-bit range is read as a float (the unsigned
    column [read_csv] builds for some of them is outside the model). *)
Module Csv.

Definition nl : ascii := ascii_of_nat 10.
Definition cr : ascii := ascii_of_nat 13.
Definition dq : ascii := ascii_of_nat 34.
Definition sep : ascii := ";".

Definition str1 (c : ascii) : string := String c EmptyString.

Fixpoint rev_string (acc s : string) : string :=
  match s with
  | EmptyString => acc
  | String c r => rev_string (String c acc) r
  end.

(** *** Writing *)

Fixpoint needs_quote (s : string) : bool :=
  match s with
  | EmptyString => false
  | String c r =>
      (Ascii.eqb c sep || Ascii.eqb c dq || Ascii.eqb c nl || Ascii.eqb c cr
       || needs_quote r)%bool
  end.

Fixpoint double_quotes (s : string) : string :=
  match s with
  | EmptyString => EmptyString
  | String c r =>
      if Ascii.eqb c dq then String dq (String dq (double_quotes r))
      else String c (double_quotes r)
  end.

Definition quote_field (s : string) : string :=
  if needs_quote s then str1 dq ++ double_quotes s ++ str1 dq else s.

(** a line of the file; a line made of one empty field is written as a
    pair of quotes, so that it is not a blank line *)
Definition write_line (fields : list string) : string :=
  match fields with
  | [EmptyString] => str1 dq ++ str1 dq ++ str1 nl
  | _ => Text.join (str1 sep) (map quote_field fields) ++ str1 nl
  end.

(** text of a cell: missing values are written as the empty field *)
Definition format_cell (v : value) : string :=
  match v with
  | VNa => EmptyString
  | VInt z => Text.of_Z z
  | VFloat f => float_repr f
  | VStr s => s
  | VBool b => if b then "True" else "False"
  end.

Definition row_cells (d : frame) (i : nat) : list value :=
  map (fun kv => nth i (s_cells (snd kv)) VNa) (cols d).

(** [df.to_csv(index=False, sep=';')] as text *)
Definition to_csv (d : frame) : string :=
  write_line (columns d) ++
  String.concat EmptyString (map (fun i => write_line (map format_cell (row_cells d i)))
                        (seq 0 (nrows d))).

(** *** Reading *)

Inductive tok_state := AtStart | InField | InQuoted | QuoteInQuoted.

(** The tokenizer: [field] and [row] are the current field and record,
    reversed; [used] tells whether the current line has any character, a
    line without any being skipped. *)
Fixpoint tokenize (s : string) (st : tok_state) (field : string)
         (row : list string) (used : bool) (rows : list (list string))
  : list (list string) :=
  let end_row := rev (rev_string EmptyString field :: row) :: rows in
  match s with
  | EmptyString => rev (if used then end_row else rows)
  | String c r =>
      match st with
      | InQuoted =>
          if Ascii.eqb c dq then tokenize r QuoteInQuoted field row true rows
          else tokenize r InQuoted (String c field) row true rows
      | _ =>
          if Ascii.eqb c nl then
            tokenize r AtStart EmptyString [] false (if used then end_row else rows)
          else if Ascii.eqb c cr then
            tokenize r st field row used rows
          else if Ascii.eqb c sep then
            tokenize r AtStart EmptyString (rev_string EmptyString field :: row) true rows
          else if Ascii.eqb c dq then
            match st with
            | AtStart => tokenize r InQuoted field row true rows
            | QuoteInQuoted => tokenize r InQuoted (String c field) row true rows
            | _ => tokenize r InField (String c field) row true rows
            end
          else tokenize r InField (String c field) row true rows
      end
  end.

Definition records (s : string) : list (list string) :=
  tokenize s AtStart EmptyString [] false [].

(** the markers [read_csv] reads as a missing value *)
Definition na_values : list string :=
  [EmptyString; "#N/A"; "#N/A N/A"; "#NA"; "-1.#IND"; "-1.#QNAN"; "-NaN"; "-nan";
   "1.#IND"; "1.#QNAN"; "<NA>"; "N/A"; "NA"; "NULL"; "NaN"; "None"; "n/a";
   "nan"; "null"].

Definition is_na_text (s : string) : bool := Text.mem s na_values.

Definition parse_bool (s : string) : option bool :=
  if Text.mem s ["True"; "TRUE"; "true"] then Some true
  else if Text.mem s ["False"; "FALSE"; "false"] then Some false
  else None.

Definition is_some {A} (o : option A) : bool :=
  match o with Some _ => true | None => false end.

(** Type inference on the texts of one column. *)
Definition infer_column (texts : list string) : series :=
  let na_or (f : string -> value) (s : string) :=
    if is_na_text s then VNa else f s in
  let as_int s := match parse_int s with Some z => VInt z | None => VNa end in
  let as_float s := match parse_float s with Some f => VFloat f | None => VNa end in
  let as_bool s := match parse_bool s with Some b => VBool b | None => VNa end in
  let present := filter (fun s => negb (is_na_text s)) texts in
  match texts with
  | [] => mkSeries DObject []
  | _ =>
      if forallb (fun s => match parse_int s with
                           | Some z => in_int64 z
                           | None => false
                           end) texts
      then mkSeries Dint64 (map as_int texts)
      else if forallb (fun s => is_some (parse_float s)) present
      then mkSeries DFloat64 (map (na_or as_float) texts)
      else if forallb (fun s => is_some (parse_bool s)) present
      then mkSeries (if Nat.eqb (List.length present) (List.length texts)
                     then Dbool else DObject)
                    (map (na_or as_bool) texts)
      else mkSeries DObject (map (na_or VStr) texts)
  end.

(** header names: an empty name becomes [Unnamed: i], a repeated name gets
    a numeric suffix *)
Fixpoint header_names (i : nat) (seen : list string) (names : list string)
  : list string :=
  match names with
  | [] => []
  | n :: r =>
      let n1 := if String.eqb n EmptyString then "Unnamed: " ++ Text.of_nat i else n in
      let k := List.length (filter (String.eqb n1) seen) in
      let n2 := if Nat.eqb k 0 then n1 else n1 ++ "." ++ Text.of_nat k in
      n2 :: header_names (S i) (n1 :: seen) r
  end.

(** pads a short row with empty fields *)
Definition pad_row (n : nat) (row : list string) : list string :=
  row ++ repeat EmptyString (n - List.length row).

(** [pd.read_csv(text, delimiter=';')].  When the first row of data has
    [k] fields more than the header, the first [k] fields of every row are
    row labels, not data; a row with still more fields is a parse error. *)
Definition read_csv (content : string) : result frame :=
  match records content with
  | [] => raise (ValueError "No columns to parse from file")
  | header :: rows =>
      let n := List.length header in
      let k := match rows with
               | [] => O
               | first :: _ => (List.length first - n)%nat
               end in
      if forallb (fun r => Nat.leb (List.length r) (n + k)) rows
      then
        let rows := map (fun r => skipn k (pad_row (n + k) r)) rows in
        ret (mkFrame (List.length rows)
               (map (fun ic => (snd ic,
                                infer_column (map (fun r => nth (fst ic) r EmptyString) rows)))
                    (combine (seq 0 n) (header_names 0 [] header))))
      else raise (ParserError "Error tokenizing data")
  end.

End Csv.

(* ------------------------------------------------------------------ *)
(** ** The world outside: files and the page                           *)
(* ------------------------------------------------------------------ *)

(** What [st.success] and [st.error] put on the page. *)
Inductive note := StSuccess (msg : string) | StError (msg : string).

(** The files by path, the paths that cannot be opened for writing, and the
    notes shown so far (latest first). *)
Record world := mkWorld {
  files : list (string * string);
  unwritable : list string;
  page : list note
}.

Definition show (n : note) (w : world) : world :=
  mkWorld (files w) (unwritable w) (n :: page w).

(** [os.path.exists(path)] *)
Definition path_exists (w : world) (path : string) : bool :=
  Csv.is_some (assoc path (files w)).

(** opening [path] for writing fails on the empty path and on the paths
    the world marks unwritable *)
Definition can_write (w : world) (path : string) : bool :=
  (negb (String.eqb path EmptyString) && negb (Text.mem path (unwritable w)))%bool.

(** overwrites (or creates) the file at [path] *)
Definition write_file (w : world) (path content : string) : world :=
  mkWorld ((path, content) :: filter (fun kv => negb (String.eqb path (fst kv))) (files w))
          (unwritable w) (page w).

(* ------------------------------------------------------------------ *)
(** ** [CRMAgent.load_data]                                            *)
(* ------------------------------------------------------------------ *)

Definition required_columns : list (string * dtype) :=
  [("Customer ID", DInt64); ("First Name", DObject); ("Last Name", DObject);
   ("Email", DObject); ("Phone", DObject); ("Status", DObject);
   ("Amount", DFloat64)].

Definition required_names : list string := map fst required_columns.

(** What reading the storage gives: no file at the path, an exception of
    [read_csv], or the table it parsed. *)
Inductive read_result :=
| NoFile
| ReadRaises (e : exn)
| ReadOk (d : frame).

(** ['Unnamed:' in col] *)
Definition is_unnamed (col : string) : bool := Text.contains "Unnamed:" col.

(** lines 36-43: the legacy [Name] column *)
Definition split_legacy_name (data : frame) : result frame :=
  if has_column data "Name" then
    data1 <-
      (if (negb (has_column data "First Name")
           || negb (has_column data "Last Name"))%bool
       then
         match get_column data "Name" with
         | None => raise (KeyError "Name")
         | Some name =>
             parts <- str_accessor name ;;
             let data := set_column data "First Name"
                           (mkSeries DObject (map name_first parts)) in
             let data := set_column data "Last Name"
                           (mkSeries DObject (map name_last parts)) in
             ret data
         end
       else ret data) ;;
    ret (drop_columns data1 ["Name"])
  else ret data.

(** lines 48-55: one round of the loop over the declared columns *)
Definition ensure_column (data : frame) (cd : string * dtype) : frame :=
  let '(column, dt) := cd in
  match get_column data column with
  | None => set_column data column (empty_series dt (nrows data))
  | Some s =>
      match astype dt s with
      | inr s' => set_column data column s'
      | inl _ => set_column data column (empty_series dt (nrows data))
      end
  end.

Definition ensure_columns (data : frame) : frame :=
  fold_left ensure_column required_columns data.

(** lines 29-45: the table before the loop over the declared columns *)
Definition read_and_clean (r : read_result) : result frame :=
  match r with
  | NoFile => ret (empty_frame required_names)
  | ReadRaises e => raise e
  | ReadOk data =>
      let data := drop_columns data (filter is_unnamed (columns data)) in
      split_legacy_name data
  end.

(** the body of the [try] block, from what the read gave *)
Definition load_body (r : read_result) : result frame :=
  data <- read_and_clean r ;;
  ret (dropna_all (ensure_columns data)).

(** [load_data] from what the read gave: the table returned and, when the
    body raised, the error shown on the page *)
Definition load_from (r : read_result) : frame * option note :=
  match load_body r with
  | inr data => (data, None)
  | inl e => (empty_frame required_names,
              Some (StError ("Error loading data: " ++ exn_str e)))
  end.

(** lines 25-30: the read itself *)
Definition read_storage (w : world) (file_path : string) : read_result :=
  let file_path :=
    if String.eqb file_path EmptyString then "data.csv" else file_path in
  match assoc file_path (files w) with
  | None => NoFile
  | Some content =>
      match Csv.read_csv content with
      | inr d => ReadOk d
      | inl e => ReadRaises e
      end
  end.

Definition load_data (w : world) (file_path : string) : frame * world :=
  let '(data, err) := load_from (read_storage w file_path) in
  (data, match err with Some n => show n w | None => w end).

(* ------------------------------------------------------------------ *)
(** ** [CRMAgent.save_data]                                            *)
(* ------------------------------------------------------------------ *)

(** writes the table and reports; a failed write is reported and raised
    again *)
Definition save_data (df : frame) (file_path : string) (w : world)
  : result unit * world :=
  if can_write w file_path then
    (ret tt,
     show (StSuccess ("Data successfully saved to " ++ file_path))
          (write_file w file_path (Csv.to_csv df)))
  else
    let e := OSError ("[Errno 2] No such file or directory: '" ++ file_path ++ "'") in
    (raise e,
     show (StError ("Error saving data to " ++ file_path ++ ": " ++ exn_str e)) w).

(* ------------------------------------------------------------------ *)
(** ** Field dictionaries and numeric cells                            *)
(* ------------------------------------------------------------------ *)

(** A Python [dict] from field names to values, in insertion order. *)
Definition dict := list (string * value).

(** [d[key] = v]: replaces the value of an existing key, appends otherwise *)
Definition dict_set (d : dict) (key : string) (v : value) : dict :=
  if Text.mem key (map fst d) then replace_assoc key v d else (d ++ [(key, v)])%list.

(** Python truthiness: [None], [0], [0.0], the empty text and [False] are
    false *)
Definition truthy (v : value) : bool :=
  match v with
  | VNa => false
  | VInt z => negb (Z.eqb z 0)
  | VFloat f => negb (Z.eqb (fmant f) 0)
  | VStr s => negb (String.eqb s EmptyString)
  | VBool b => b
  end.

(** the number a cell holds, as a decimal *)
Definition numeric (v : value) : option float64 :=
  match v with
  | VInt z => Some (float_of_Z z)
  | VFloat f => Some f
  | VBool b => Some (float_of_Z (if b then 1 else 0))
  | _ => None
  end.

Definition pow10 (n : nat) : Z := 10 ^ Z.of_nat n.

Definition float_leb (a b : float64) : bool :=
  fmant a * pow10 (fscale b) <=? fmant b * pow10 (fscale a).

Definition float_eqb (a b : float64) : bool :=
  fmant a * pow10 (fscale b) =? fmant b * pow10 (fscale a).

Definition float_max (a b : float64) : float64 :=
  if float_leb a b then b else a.

(** [int(x + 1)]: the sum, truncated towards zero *)
Definition succ_trunc (f : float64) : Z :=
  Z.quot (fmant f + pow10 (fscale f)) (pow10 (fscale f)).

(** [cell == customer_id] in a column of dtype [dt]: [None] is the missing
    truth value [pd.NA], which only the nullable [Int64] produces *)
Definition cell_eq (dt : dtype) (v : value) (id : Z) : option bool :=
  match v with
  | VNa => match dt with DInt64 => None | _ => Some false end
  | VStr _ => Some false
  | _ => match numeric v with
         | Some f => Some (float_eqb f (float_of_Z id))
         | None => Some false
         end
  end.

Definition eq_mask (s : series) (id : Z) : list (option bool) :=
  map (fun v => cell_eq (s_dtype s) v id) (s_cells s).

(** a mask used as an indexer: a missing truth value selects nothing *)
Definition as_indexer (m : list (option bool)) : list bool :=
  map (fun o => match o with Some b => b | None => false end) m.

(** the builtin [any] over a mask: stops at the first true flag, and
    raises on a missing truth value met before it *)
Fixpoint py_any (m : list (option bool)) : result bool :=
  match m with
  | [] => ret false
  | Some true :: _ => ret true
  | Some false :: r => py_any r
  | None :: _ => raise (TypeError "boolean value of NA is ambiguous")
  end.

(* ------------------------------------------------------------------ *)
(** ** [CRMAgent.add_customer]                                         *)
(* ------------------------------------------------------------------ *)

Definition required_fields : list string :=
  ["First Name"; "Last Name"; "Email"; "Phone"; "Status"; "Amount"].

(** lines 86-88: the first field that is absent or false, if any *)
Fixpoint first_missing (fields : list string) (details : dict) : option string :=
  match fields with
  | [] => None
  | field :: r =>
      match assoc field details with
      | None => Some field
      | Some v => if truthy v then first_missing r details else Some field
      end
  end.

(** [data.empty] *)
Definition frame_empty (d : frame) : bool :=
  (Nat.eqb (nrows d) 0 || Nat.eqb (List.length (cols d)) 0)%bool.

(** [int(s.max() + 1)]: the maximum skips the missing cells; text cannot
    be added to, and a column without any value has a missing maximum.
    The maximum of a 64-bit integer column is a 64-bit integer, and adding
    1 to it wraps around. *)
Definition max_plus_one (s : series) : result Z :=
  let present := filter (fun v => negb (is_na v)) (s_cells s) in
  if existsb is_str present
  then raise (TypeError "can only concatenate str (not int) to str")
  else
    match present with
    | [] => raise (TypeError "int() argument must be a string or a real number, not NAType")
    | v :: r =>
        let num x := match numeric x with Some f => f | None => float_of_Z 0 end in
        let next := succ_trunc (fold_left (fun m x => float_max m (num x)) r (num v)) in
        ret (match s_dtype s with
             | DInt64 | Dint64 => wrap_int64 next
             | _ => next
             end)
    end.

(** lines 91-93 *)
Definition new_customer_id (data : frame) : result Z :=
  if frame_empty data then ret 1
  else match get_column data "Customer ID" with
       | None => ret 1
       | Some s => max_plus_one s
       end.

(** dtype [pd.DataFrame] infers for a one-cell column *)
Definition dtype_of_value (v : value) : dtype :=
  match v with
  | VInt _ => Dint64
  | VFloat _ => DFloat64
  | VBool _ => Dbool
  | _ => DObject
  end.

(** [pd.DataFrame([details])]: one row, the columns in the order of the keys *)
Definition record_frame (details : dict) : frame :=
  mkFrame 1 (map (fun kv => (fst kv, mkSeries (dtype_of_value (snd kv)) [snd kv]))
                 details).

(** dtype of the concatenation of two columns *)
Definition common_dtype (a b : dtype) : dtype :=
  match a, b with
  | DInt64, (DInt64 | Dint64) | Dint64, DInt64 => DInt64
  | Dint64, Dint64 => Dint64
  | DFloat64, (DFloat64 | Dint64 | DInt64) | (Dint64 | DInt64), DFloat64 => DFloat64
  | Dbool, Dbool => Dbool
  | _, _ => DObject
  end.

(** dtype a column takes when rows without a value are added to it *)
Definition with_missing (dt : dtype) : dtype :=
  match dt with
  | Dint64 => DFloat64
  | Dbool => DObject
  | other => other
  end.

(** a value as a column of dtype [dt] holds it: float64 holds numbers as
    floats *)
Definition stored (dt : dtype) (v : value) : value :=
  match dt, v with
  | DFloat64, VInt z => VFloat (float_of_Z z)
  | _, _ => v
  end.

Definition concat_series (a b : series) : series :=
  let dt := common_dtype (s_dtype a) (s_dtype b) in
  mkSeries dt (map (stored dt) (s_cells a ++ s_cells b)).

(** [pd.concat([a, b], ignore_index=True)]: the rows of [a] then those of
    [b]; the columns of [a] in order, then those only [b] has; a column
    absent on one side is missing there *)
Definition concat (a b : frame) : frame :=
  let missing dt n := mkSeries (with_missing dt) (repeat VNa n) in
  mkFrame (nrows a + nrows b)
    (map (fun kv =>
            (fst kv,
             concat_series (snd kv)
               (match assoc (fst kv) (cols b) with
                | Some s => s
                | None => missing (s_dtype (snd kv)) (nrows b)
                end)))
         (cols a)
     ++
     map (fun kv => (fst kv, concat_series (missing (s_dtype (snd kv)) (nrows a)) (snd kv)))
         (filter (fun kv => negb (has_column a (fst kv))) (cols b))).

(** the table [add_customer] saves: [data] and the new record *)
Definition with_new_record (data : frame) (details : dict) (new_id : Z) : frame :=
  concat data (record_frame (dict_set details "Customer ID" (VInt new_id))).

(** the body of the [try] block *)
Definition add_body (data : frame) (details : dict) (file_path : string)
           (w : world) : result string * world :=
  match first_missing required_fields details with
  | Some field => (ret ("Error: " ++ field ++ " is required"), w)
  | None =>
      match new_customer_id data with
      | inl e => (raise e, w)
      | inr new_id =>
          match save_data (with_new_record data details new_id) file_path w with
          | (inl e, w') => (raise e, w')
          | (inr _, w') =>
              (ret ("Customer added successfully with ID " ++ Text.of_Z new_id), w')
          end
      end
  end.

Definition add_customer (data : frame) (details : dict) (file_path : string)
           (w : world) : string * world :=
  match add_body data details file_path w with
  | (inr msg, w') => (msg, w')
  | (inl e, w') => ("Error adding customer: " ++ exn_str e, w')
  end.

(* ------------------------------------------------------------------ *)
(** ** [CRMAgent.update_customer]                                      *)
(* ------------------------------------------------------------------ *)

(** writes [v] at the positions [mask] selects *)
Fixpoint put_cells (mask : list bool) (v : value) (l : list value) : list value :=
  match mask, l with
  | b :: m, x :: r => (if b then v else x) :: put_cells m v r
  | _, _ => l
  end.

(** dtype of a column after [v] is written into it: the column keeps its
    dtype when it can hold [v]; a NumPy column is upcast otherwise, and the
    nullable [Int64] refuses the value *)
Definition dtype_after_set (dt : dtype) (v : value) : result dtype :=
  match dt, v with
  | DObject, _ => ret DObject
  | DInt64, (VInt _ | VNa) => ret DInt64
  | DInt64, VBool _ => raise (TypeError "Invalid value for dtype Int64")
  | DInt64, VFloat f =>
      match float_to_Z f with
      | Some _ => ret DInt64
      | None => raise (TypeError "Invalid value for dtype Int64")
      end
  | DInt64, VStr _ => raise (TypeError "Invalid value for dtype Int64")
  | DFloat64, (VInt _ | VFloat _ | VNa) => ret DFloat64
  | DFloat64, _ => ret DObject
  | Dint64, VInt _ => ret Dint64
  | Dint64, VFloat f =>
      match float_to_Z f with
      | Some _ => ret Dint64
      | None => ret DFloat64
      end
  | Dint64, VNa => ret DFloat64
  | Dint64, _ => ret DObject
  | Dbool, VBool _ => ret Dbool
  | Dbool, _ => ret DObject
  end.

(** a value as a column of dtype [dt] holds it, integers-only columns
    included *)
Definition stored_set (dt : dtype) (v : value) : value :=
  match dt, v with
  | (DInt64 | Dint64), VFloat f =>
      match float_to_Z f with Some z => VInt z | None => v end
  | _, _ => stored dt v
  end.

(** [data.loc[mask, key] = value] on the column [s] *)
Definition set_masked (s : series) (mask : list bool) (v : value) : result series :=
  dt <- dtype_after_set (s_dtype s) v ;;
  ret (mkSeries dt (put_cells mask (stored_set dt v) (map (stored dt) (s_cells s)))).

(** lines 125-127.  The table is updated in place: when an assignment
    raises, the assignments made before it remain. *)
Fixpoint apply_updates (data : frame) (mask : list bool) (updates : dict)
  : frame * option exn :=
  match updates with
  | [] => (data, None)
  | (key, v) :: r =>
      match get_column data key with
      | None => apply_updates data mask r
      | Some s =>
          match set_masked s mask v with
          | inl e => (data, Some e)
          | inr s' => apply_updates (set_column data key s') mask r
          end
      end
  end.

(** the body of the [try] block, with the table as the caller sees it
    afterwards *)
Definition update_body (data : frame) (customer_id : Z) (updates : dict)
           (file_path : string) (w : world) : result string * frame * world :=
  match get_column data "Customer ID" with
  | None => (raise (KeyError "Customer ID"), data, w)
  | Some ids =>
      let customer_mask := eq_mask ids customer_id in
      match py_any customer_mask with
      | inl e => (raise e, data, w)
      | inr false =>
          (ret ("No customer found with ID " ++ Text.of_Z customer_id), data, w)
      | inr true =>
          match apply_updates data (as_indexer customer_mask) updates with
          | (data', Some e) => (raise e, data', w)
          | (data', None) =>
              match save_data data' file_path w with
              | (inl e, w') => (raise e, data', w')
              | (inr _, w') =>
                  (ret ("Customer with ID " ++ Text.of_Z customer_id
                        ++ " updated successfully"), data', w')
              end
          end
      end
  end.

Definition update_customer (data : frame) (customer_id : Z) (updates : dict)
           (file_path : string) (w : world) : string * frame * world :=
  match update_body data customer_id updates file_path w with
  | (inr msg, data', w') => (msg, data', w')
  | (inl e, data', w') => ("Error updating customer: " ++ exn_str e, data', w')
  end.

(* ------------------------------------------------------------------ *)
(** ** [CRMAgent.delete_customer]                                      *)
(* ------------------------------------------------------------------ *)

(** [customer_id in s.values]: missing cells are skipped *)
Definition id_in (s : series) (customer_id : Z) : bool :=
  existsb (fun b => b) (as_indexer (eq_mask s customer_id)).

(** [s != customer_id] as an indexer: a missing comparison selects nothing *)
Definition ne_indexer (s : series) (customer_id : Z) : list bool :=
  map (fun o => match o with Some b => negb b | None => false end)
      (eq_mask s customer_id).

Definition delete_body (data : frame) (customer_id : Z) (file_path : string)
           (w : world) : result string * world :=
  match get_column data "Customer ID" with
  | None => (raise (KeyError "Customer ID"), w)
  | Some ids =>
      if negb (id_in ids customer_id)
      then (ret ("No customer found with ID " ++ Text.of_Z customer_id), w)
      else
        let updated_data := select_rows data (ne_indexer ids customer_id) in
        match save_data updated_data file_path w with
        | (inl e, w') => (raise e, w')
        | (inr _, w') =>
            (ret ("Customer with ID " ++ Text.of_Z customer_id
                  ++ " deleted successfully"), w')
        end
  end.

Definition delete_customer (data : frame) (customer_id : Z) (file_path : string)
           (w : world) : string * world :=
  match delete_body data customer_id file_path w with
  | (inr msg, w') => (msg, w')
  | (inl e, w') => ("Error deleting customer: " ++ exn_str e, w')
  end.

(* ------------------------------------------------------------------ *)
(** ** [CRMAgent.search_records]                                       *)
(* ------------------------------------------------------------------ *)

(** [str.contains(pat)] reads [pat] as a regular expression.  The model
    has the patterns made of ordinary characters and of the dot, which
    stands for any character but a line feed; a pattern using another
    special character is outside it. *)
Inductive re_item := RChar (c : ascii) | RAnyChar.

Definition re_special (c : ascii) : bool :=
  existsb (Ascii.eqb c)
          (list_ascii_of_string ("^$*+?{}[]|()" ++ String (ascii_of_nat 92) EmptyString)).

Fixpoint re_compile (pat : string) : option (list re_item) :=
  match pat with
  | EmptyString => Some []
  | String c r =>
      if re_special c then None
      else option_map (cons (if Ascii.eqb c "." then RAnyChar else RChar c))
                      (re_compile r)
  end.

Fixpoint re_match_here (items : list re_item) (s : string) : bool :=
  match items, s with
  | [], _ => true
  | RChar a :: r, String b s' => (Ascii.eqb a b && re_match_here r s')%bool
  | RAnyChar :: r, String b s' =>
      (negb (Ascii.eqb b Csv.nl) && re_match_here r s')%bool
  | _ :: _, EmptyString => false
  end.

(** [re.search]: a match starting somewhere in [s] *)
Fixpoint re_search (items : list re_item) (s : string) : bool :=
  match s with
  | EmptyString => re_match_here items EmptyString
  | String _ r => (re_match_here items s || re_search items r)%bool
  end.

(** [astype(str)] on a cell of a column of dtype [dt] *)
Definition str_form (dt : dtype) (v : value) : string :=
  match v with
  | VNa => match dt with DInt64 => "<NA>" | _ => "nan" end
  | other => Csv.format_cell other
  end.

(** the cells of row [i], each with the dtype of its column *)
Definition typed_row (d : frame) (i : nat) : list (dtype * value) :=
  map (fun kv => (s_dtype (snd kv), nth i (s_cells (snd kv)) VNa)) (cols d).

(** the table row by row *)
Definition rows (d : frame) : list (list (dtype * value)) :=
  map (typed_row d) (seq 0 (nrows d)).

(** [.any(axis=1)] of the cells of a row *)
Definition row_any (p : string -> bool) (row : list (dtype * value)) : bool :=
  existsb (fun tv => p (Text.lower (str_form (fst tv) (snd tv)))) row.

(** [None] when the query is a pattern outside the model *)
Definition search_records (data : frame) (query : string) : option frame :=
  let query := Text.lower query in
  match re_compile query with
  | None => None
  | Some items =>
      Some (select_rows data (map (row_any (re_search items)) (rows data)))
  end.


(* ------------------------------------------------------------------ *)
(** ** Sample data                                                     *)
(* ------------------------------------------------------------------ *)

Definition line (s : string) : string := s ++ Csv.str1 Csv.nl.

Definition schema_header : string :=
  "Customer ID;First Name;Last Name;Email;Phone;Status;Amount".

(** a world whose only file is [data.csv], with the given content *)
Definition world_of (content : string) : world :=
  mkWorld [("data.csv", content)] [] [].

(** no file at all *)
Definition empty_world : world := mkWorld [] [] [].

(** a file with a column the schema does not declare *)
Definition csv_with_notes : string :=
  line (schema_header ++ ";Notes") ++
  line "1;Jane;Doe;jane@doe.org;+49 30 1234;Active;100.5;met at the fair".

(** a legacy file whose [Name] column holds numbers only *)
Definition csv_numeric_names : string :=
  line "Customer ID;Name;Email" ++ line "1;42;a@b.org".

(** The legacy rule in the words of the specification: [f] is the part of
    [n] before its first space and [l] the remainder, the empty text when
    [n] has no space. *)
Definition no_space (s : string) : Prop :=
  ~ In " "%char (list_ascii_of_string s).

Definition split_on_first_space (n f l : string) : Prop :=
  (no_space f /\ n = f ++ " " ++ l) \/ (no_space n /\ f = n /\ l = EmptyString).

(** a legacy table, as [read_csv] builds it *)
Definition legacy_table : frame :=
  mkFrame 2 [("Customer ID", mkSeries Dint64 [VInt 1; VInt 2]);
             ("Name", mkSeries DObject [VStr "Jane Doe"; VStr "Prince"])].

Definition legacy_csv : string :=
  line "Customer ID;Name" ++ line "1;Jane Doe" ++ line "2;Prince".

(** a legacy table that already has a [Last Name] column *)
Definition half_migrated_table : frame :=
  mkFrame 2 [("Name", mkSeries DObject [VStr "Jane Doe"; VStr "Prince"]);
             ("Last Name", mkSeries DObject [VStr "Smith"; VStr "Nelson"])].

(** a table with both the legacy column and the two new ones *)
Definition migrated_table : frame :=
  mkFrame 1 [("Name", mkSeries DObject [VStr "Jane Doe"]);
             ("First Name", mkSeries DObject [VStr "Janet"]);
             ("Last Name", mkSeries DObject [VStr "Smith"])].

(** a table with one customer, as [load_data] returns it *)
Definition one_customer : frame :=
  mkFrame 1 [("Customer ID", mkSeries DInt64 [VInt 1]);
             ("First Name", mkSeries DObject [VStr "Jane"]);
             ("Last Name", mkSeries DObject [VStr "Doe"]);
             ("Email", mkSeries DObject [VStr "jane@doe.org"]);
             ("Phone", mkSeries DObject [VStr "+49 30 1234"]);
             ("Status", mkSeries DObject [VStr "Active"]);
             ("Amount", mkSeries DFloat64 [VFloat (mkFloat 1005 1)])].

(** the fields of the form of [app.py] *)
Definition details_of (first last email phone status : string) (amount : value)
  : dict :=
  [("First Name", VStr first); ("Last Name", VStr last); ("Email", VStr email);
   ("Phone", VStr phone); ("Status", VStr status); ("Amount", amount)].

Definition john : dict :=
  details_of "John" "Smith" "john@smith.org" "+1 555 0100" "Prospect"
             (VFloat (mkFloat 250 0)).

Definition mary : dict :=
  details_of "Mary" "Major" "mary@major.org" "+1 555 0101" "Active"
             (VFloat (mkFloat 75 1)).

Definition ravi : dict :=
  details_of "Ravi" "Kumar" "ravi@kumar.org" "+91 22 5550" "Inactive"
             (VFloat (mkFloat 1 0)).

(** fields without an [Email] key, and with an empty one *)
Definition no_email : dict :=
  [("First Name", VStr "John"); ("Last Name", VStr "Smith");
   ("Phone", VStr "+1 555 0100"); ("Status", VStr "Prospect");
   ("Amount", VFloat (mkFloat 250 0))].

Definition empty_email : dict :=
  details_of "John" "Smith" EmptyString "+1 555 0100" "Prospect"
             (VFloat (mkFloat 250 0)).

(** fields with a zero amount, as the form gives them by default *)
Definition zero_amount : dict :=
  details_of "John" "Smith" "john@smith.org" "+1 555 0100" "Prospect"
             (VFloat (mkFloat 0 0)).

(** the column [ensure_column] installs for a declared column *)
Definition ensured (data : frame) (c : string) (dt : dtype) : series :=
  match get_column data c with
  | None => empty_series dt (nrows data)
  | Some s =>
      match astype dt s with
      | inr s' => s'
      | inl _ => empty_series dt (nrows data)
      end
  end.

(** a cell of a textual [Name] column: a text, or nothing *)
Definition name_cell (o : option string) : value :=
  match o with Some n => VStr n | None => VNa end.

Definition first_names (onames : list (option string)) : series :=
  mkSeries DObject (map (fun o => name_first (name_cell o)) onames).

Definition last_names (onames : list (option string)) : series :=
  mkSeries DObject (map (fun o => name_last (name_cell o)) onames).

(** C6 in the words of the specification, for the table read [d0]: when it
    has a [Name] column and neither [First Name] nor [Last Name], the table
    loaded has no [Name] column and, for every [Name] value, [First Name]
    and [Last Name] are the two parts of its text. *)
Definition legacy_rule (d0 : frame) : Prop :=
  has_column d0 "Name" = true ->
  has_column d0 "First Name" = false ->
  has_column d0 "Last Name" = false ->
  let d := fst (load_from (ReadOk d0)) in
  has_column d "Name" = false /\
  forall i v, cell d0 "Name" i = Some v ->
    exists f l,
      cell d "First Name" i = Some (VStr f) /\
      cell d "Last Name" i = Some (VStr l) /\
      split_on_first_space (Csv.format_cell v) f l.


(** a legacy table whose names are numbers, as [read_csv] builds it *)
Definition numeric_names_table : frame :=
  mkFrame 1 [("Customer ID", mkSeries Dint64 [VInt 1]);
             ("Name", mkSeries Dint64 [VInt 42]);
             ("Email", mkSeries DObject [VStr "a@b.org"])].


(** a legacy table with a blank name *)
Definition legacy_table_with_blank : frame :=
  mkFrame 3 [("Customer ID", mkSeries Dint64 [VInt 1; VInt 2; VInt 3]);
             ("Name", mkSeries DObject [VStr "Jane Doe"; VNa; VStr "Prince"])].

(** a field is given when it is a key of the dictionary with a true value *)
Definition given (details : dict) (field : string) : Prop :=
  exists v, assoc field details = Some v /\ truthy v = true.

(** a field is lacking when it is no key, or a key with a false value *)
Definition lacking (details : dict) (field : string) : Prop :=
  assoc field details = None \/
  exists v, assoc field details = Some v /\ truthy v = false.

(** A cell keeps its value: it is unchanged, or it is an integer that a
    float64 column now holds as the equal float. *)
Definition same_cell (old new : value) : Prop :=
  new = old \/ exists z, old = VInt z /\ new = VFloat (float_of_Z z).

(** A rectangular table: every column has one cell per row. *)
Definition frame_wf (d : frame) : Prop :=
  Forall (fun kv => List.length (s_cells (snd kv)) = nrows d) (cols d).

(** [m] is the greatest of the integers [ids] *)
Definition is_max (m : Z) (ids : list Z) : Prop :=
  In m ids /\ forall z, In z ids -> z <= m.

(** fields lacking both [Last Name] (empty) and [Phone] (absent) *)
Definition two_lacking : dict :=
  [("First Name", VStr "John"); ("Last Name", VStr EmptyString);
   ("Email", VStr "john@smith.org"); ("Status", VStr "Prospect");
   ("Amount", VFloat (mkFloat 250 0))].

(** a table with two customers, as [load_data] returns it *)
Definition two_customers : frame :=
  mkFrame 2 [("Customer ID", mkSeries DInt64 [VInt 1; VInt 2]);
             ("First Name", mkSeries DObject [VStr "Jane"; VStr "John"]);
             ("Last Name", mkSeries DObject [VStr "Doe"; VStr "Smith"]);
             ("Email", mkSeries DObject [VStr "jane@doe.org"; VStr "john@smith.org"]);
             ("Phone", mkSeries DObject [VStr "+49 30 1234"; VStr "+1 555 0100"]);
             ("Status", mkSeries DObject [VStr "Active"; VStr "Prospect"]);
             ("Amount", mkSeries DFloat64 [VFloat (mkFloat 1005 1);
                                           VFloat (mkFloat 250 0)])].

(** a table whose customer has no identifier, as [load_data] returns it
    for a file without a [Customer ID] column *)
Definition customer_without_id : frame :=
  mkFrame 1 [("Customer ID", mkSeries DInt64 [VNa]);
             ("First Name", mkSeries DObject [VStr "Jane"]);
             ("Last Name", mkSeries DObject [VStr "Doe"]);
             ("Email", mkSeries DObject [VNa]);
             ("Phone", mkSeries DObject [VNa]);
             ("Status", mkSeries DObject [VNa]);
             ("Amount", mkSeries DFloat64 [VNa])].

(** a world in which [data.csv] cannot be written *)
Definition locked_world : world :=
  mkWorld [("data.csv", line schema_header)] ["data.csv"] [].

(** the same table without its first row *)
Definition tail_rows (d : frame) : frame :=
  mkFrame (pred (nrows d))
          (map (fun kv => (fst kv, mkSeries (s_dtype (snd kv)) (tl (s_cells (snd kv)))))
               (cols d)).

(** a [Customer ID] cell: an integer, or missing *)
Definition id_cell (o : option Z) : value :=
  match o with Some z => VInt z | None => VNa end.

(** whether [delete_customer] keeps a row, from its identifier: a row with
    another identifier is kept; a row without identifier is kept unless the
    column is the nullable [Int64] *)
Definition kept_on_delete (dt : dtype) (customer_id : Z) (o : option Z) : bool :=
  match o with
  | Some z => negb (Z.eqb z customer_id)
  | None => negb (dtype_eqb dt DInt64)
  end.

(** a table in which one customer has no identifier *)
Definition partly_identified : frame :=
  mkFrame 3 [("Customer ID", mkSeries DInt64 [VInt 1; VNa; VInt 2]);
             ("First Name", mkSeries DObject [VStr "Jane"; VStr "Prince"; VStr "John"])].

(** a pattern without any special character, the dot included: text that a
    regular expression reads literally *)
Fixpoint re_plain (pat : string) : bool :=
  match pat with
  | EmptyString => true
  | String c r => (negb (re_special c) && negb (Ascii.eqb c ".") && re_plain r)%bool
  end.

(** the table [load_data] returns when there is no file: the seven
    declared columns with their declared types, and no row *)
Definition declared_empty : frame :=
  mkFrame 0 (map (fun cd => (fst cd, mkSeries (snd cd) [])) required_columns).

(** a row holds a value in some column *)
Definition row_not_empty (row : list (dtype * value)) : bool :=
  existsb (fun tv => negb (is_na (snd tv))) row.

(** a table read with an index column and an all-empty row *)
Definition table_with_index : frame :=
  mkFrame 2 [("Unnamed: 0", mkSeries Dint64 [VInt 0; VInt 1]);
             ("Customer ID", mkSeries DFloat64 [VFloat (mkFloat 1 0); VNa]);
             ("First Name", mkSeries DObject [VStr "Jane"; VNa])].

(* ------------------------------------------------------------------ *)
(** ** [app.py]: the conversation sent to the assistant                *)
(* ------------------------------------------------------------------ *)

Inductive role := RSystem | RUser | RAssistant.

(** a message of the chat API: [{"role": ..., "content": ...}] *)
Record chat_message := mkMsg { msg_role : role; msg_content : string }.

(** an entry of the conversation history, as [main] stores it:
    [{"user": user_input, "martina": bot_response}] *)
Record turn := mkTurn { turn_user : string; turn_martina : string }.

Definition system_prompt : string :=
  "You are Martina, a friendly and conversational CRM assistant. " ++
  "Your goal is to help users manage their CRM data effectively. " ++
  "You can assist with analyzing records and providing insights. " ++
  "When users ask you to make changes, inform them to use the menu on the left.".

(** lines 24-28: one message per entry of the history, [i] being the
    position of the entry *)
Fixpoint history_messages (i : nat) (history : list turn) : list chat_message :=
  match history with
  | [] => []
  | msg :: r =>
      (if Nat.eqb (Nat.modulo i 2) 0
       then mkMsg RUser (turn_user msg)
       else mkMsg RAssistant (turn_martina msg))
      :: history_messages (S i) r
  end.

(** [data.head()]: the first five rows *)
Definition head (d : frame) : frame :=
  select_rows d (map (fun i => Nat.ltb i 5) (seq 0 (nrows d))).

(** lines 32-39; [render] is [DataFrame.to_string(index=False)] *)
Definition crm_context (render : frame -> string) (data : frame) : string :=
  let indent := "            " in
  line EmptyString ++
  line (indent ++ "Current CRM Data Overview:") ++
  line (indent ++ "- Total Customers: " ++ Text.of_nat (nrows data)) ++
  line (indent ++ "- Columns: " ++ Text.join ", " (columns data)) ++
  line indent ++
  line (indent ++ "Sample Data:") ++
  line (indent ++ render (head data)) ++
  indent.

(** [l.insert(1, x)] *)
Definition insert_second {A} (x : A) (l : list A) : list A :=
  match l with
  | [] => [x]
  | a :: r => a :: x :: r
  end.

(** lines 17-40: the messages [chat_with_martina] sends *)
Definition conversation (render : frame -> string) (message : string)
           (data : frame) (history : list turn) : list chat_message :=
  let conv := [mkMsg RSystem system_prompt] in
  let conv := (conv ++ history_messages 0 history)%list in
  let conv := (conv ++ [mkMsg RUser message])%list in
  insert_second (mkMsg RSystem (crm_context render data)) conv.

(** what the call to the chat API gives *)
Inductive api_result :=
| ApiReply (content : string)
| ApiOpenAIError (msg : string)
| ApiOtherError (msg : string).

(** the 8-bit characters [str.strip] removes *)
Definition is_space (c : ascii) : bool :=
  let n := nat_of_ascii c in
  (Nat.eqb n 32 || (Nat.leb 9 n && Nat.leb n 13)
   || (Nat.leb 28 n && Nat.leb n 31) || Nat.eqb n 133 || Nat.eqb n 160)%bool.

Fixpoint lstrip (s : string) : string :=
  match s with
  | String c r => if is_space c then lstrip r else s
  | EmptyString => EmptyString
  end.

(** [s.strip()] *)
Definition strip (s : string) : string :=
  Csv.rev_string EmptyString
    (lstrip (Csv.rev_string EmptyString (lstrip s))).

(** [AIAssistant.chat_with_martina]: the text returned and the error
    shown, if any; [complete] is the call to the chat API *)
Definition chat_with_martina (complete : list chat_message -> api_result)
           (render : frame -> string) (message : string) (data : frame)
           (history : list turn) : string * option note :=
  match complete (conversation render message data history) with
  | ApiReply content => (strip content, None)
  | ApiOpenAIError msg =>
      let error_message := "OpenAI API Error: " ++ msg in
      (error_message, Some (StError error_message))
  | ApiOtherError msg =>
      let error_message := "Unexpected error: " ++ msg in
      (error_message, Some (StError error_message))
  end.

(** lines 106-117 of [main]: one exchange of the chat page; the history
    gains the question and the text returned *)
Definition chat_step (complete : list chat_message -> api_result)
           (render : frame -> string) (user_input : string) (data : frame)
           (history : list turn) : list turn :=
  let bot_response :=
    fst (chat_with_martina complete render user_input data history) in
  (history ++ [mkTurn user_input bot_response])%list.

(* ------------------------------------------------------------------ *)
(** ** [app.py]: the filter of the update and delete pages             *)
(* ------------------------------------------------------------------ *)

(** a match that ignores case ([case=False]) *)
Fixpoint re_match_here_ci (items : list re_item) (s : string) : bool :=
  match items, s with
  | [], _ => true
  | RChar a :: r, String b s' =>
      (Ascii.eqb (Text.lower_char a) (Text.lower_char b)
       && re_match_here_ci r s')%bool
  | RAnyChar :: r, String b s' =>
      (negb (Ascii.eqb b Csv.nl) && re_match_here_ci r s')%bool
  | _ :: _, EmptyString => false
  end.

Fixpoint re_search_ci (items : list re_item) (s : string) : bool :=
  match s with
  | EmptyString => re_match_here_ci items EmptyString
  | String _ r => (re_match_here_ci items s || re_search_ci items r)%bool
  end.

(** lines 170-171: a copy of the table with a [Select] column of [False] *)
Definition display_data (data : frame) : frame :=
  set_column data "Select" (mkSeries Dbool (repeat (VBool false) (nrows data))).

(** [.any(axis=1)] over the text of the cells, as it is *)
Definition row_any_text (p : string -> bool) (row : list (dtype * value)) : bool :=
  existsb (fun tv => p (str_form (fst tv) (snd tv))) row.

(** lines 173-177 and 258-262: the rows the page offers; [None] when the
    query is a pattern outside the model *)
Definition page_filter (data : frame) (search_query : string) : option frame :=
  let display := display_data data in
  if String.eqb search_query EmptyString then Some display
  else
    match re_compile search_query with
    | None => None
    | Some items =>
        Some (select_rows display
                (map (row_any_text (re_search_ci items)) (rows display)))
    end.

(** the identifiers that are there *)
Fixpoint present_ids (oids : list (option Z)) : list Z :=
  match oids with
  | [] => []
  | Some z :: r => z :: present_ids r
  | None :: r => present_ids r
  end.

(** a table whose customer has the greatest 64-bit identifier *)
Definition last_id_table : frame :=
  mkFrame 1 [("Customer ID", mkSeries DInt64 [VInt 9223372036854775807]);
             ("First Name", mkSeries DObject [VStr "Jane"]);
             ("Last Name", mkSeries DObject [VStr "Doe"]);
             ("Email", mkSeries DObject [VStr "jane@doe.org"]);
             ("Phone", mkSeries DObject [VStr "+49 30 1234"]);
             ("Status", mkSeries DObject [VStr "Active"]);
             ("Amount", mkSeries DFloat64 [VFloat (mkFloat 1005 1)])].

(** The add page of [app.py] (lines 66, 72 and 157): the table is loaded
    from [data.csv], then the customer is added to it. *)
Definition add_page (w : world) (details : dict) : string * world :=
  let '(data, w1) := load_data w "data.csv" in
  add_customer data details "data.csv" w1.

(** The delete page of [app.py] for one selected customer (lines 66, 72 and
    289): the table is loaded, then the customer is deleted from it. *)
Definition delete_page (w : world) (customer_id : Z) : string * world :=
  let '(data, w1) := load_data w "data.csv" in
  delete_customer data customer_id "data.csv" w1.

(** Four actions from an empty storage: two customers are added, the
    second is deleted, a third is added.  The messages shown. *)
Definition reuse_session : list string :=
  let '(m1, w1) := add_page empty_world john in
  let '(m2, w2) := add_page w1 mary in
  let '(m3, w3) := delete_page w2 2 in
  let '(m4, _) := add_page w3 ravi in
  [m1; m2; m3; m4].

(** a pattern made of ordinary characters and dots: no other character
    that is special in a regular expression *)
Fixpoint re_dotted (pat : string) : bool :=
  match pat with
  | EmptyString => true
  | String c r => (negb (re_special c) && re_dotted r)%bool
  end.

(** C2 in the words of the specification, for one call on a table whose
    identifiers are [ids]: the customer is added under the greatest
    identifier of the table plus 1. *)
Definition next_id_rule (data : frame) (details : dict) (ids : list Z) : Prop :=
  forall m, is_max m ids ->
    fst (add_customer data details "data.csv" empty_world)
    = "Customer added successfully with ID " ++ Text.of_Z (m + 1).



(** C4 in the words of the specification, for one query: the rows returned
    are exactly the rows in which the lower-case text of some cell contains
    the lower-case query as it is written, in their order. *)
Definition literal_search_rule (data : frame) (query : string) : Prop :=
  exists found,
    search_records data query = Some found /\
    rows found = filter (row_any (Text.contains (Text.lower query))) (rows data).

(** a table with a customer whose phone number starts with zeros *)
Definition leading_zeros : frame :=
  mkFrame 1 [("Customer ID", mkSeries DInt64 [VInt 1]);
             ("First Name", mkSeries DObject [VStr "Jane"]);
             ("Last Name", mkSeries DObject [VStr "Doe"]);
             ("Email", mkSeries DObject [VStr "jane@doe.org"]);
             ("Phone", mkSeries DObject [VStr "007"]);
             ("Status", mkSeries DObject [VStr "Active"]);
             ("Amount", mkSeries DFloat64 [VFloat (mkFloat 1005 1)])].
(* ================================================================== *)
(** * Properties                                                       *)
(* ================================================================== *)

(** ** Named columns *)

Lemma mem_In (x : string) (l : list string) :
  Text.mem x l = true <-> In x l.
Proof.
  induction l as [|y l IH]; simpl.
  - split; [discriminate | tauto].
  - rewrite orb_true_iff, IH, String.eqb_eq. split; intros [H|H]; auto.
Qed.

Lemma assoc_none_iff {A} (name : string) (l : list (string * A)) :
  assoc name l = None <-> Text.mem name (map fst l) = false.
Proof.
  induction l as [|[k v] l IH]; simpl; [tauto|].
  destruct (String.eqb name k); simpl; [split; discriminate | exact IH].
Qed.

Lemma get_column_none (d : frame) (c : string) :
  get_column d c = None <-> has_column d c = false.
Proof. apply assoc_none_iff. Qed.

Lemma get_column_some (d : frame) (c : string) (s : series) :
  get_column d c = Some s -> has_column d c = true.
Proof.
  intros H. destruct (has_column d c) eqn:E; [reflexivity|].
  apply get_column_none in E. congruence.
Qed.

Lemma replace_assoc_names {A} (name : string) (v : A) (l : list (string * A)) :
  map fst (replace_assoc name v l) = map fst l.
Proof.
  induction l as [|[k x] l IH]; simpl; [reflexivity | now rewrite IH].
Qed.

Lemma assoc_replace_same {A} (name : string) (v : A) (l : list (string * A)) :
  Text.mem name (map fst l) = true -> assoc name (replace_assoc name v l) = Some v.
Proof.
  induction l as [|[k x] l IH]; simpl; [discriminate|].
  destruct (String.eqb name k); simpl; auto.
Qed.

Lemma assoc_replace_other {A} (name c : string) (v : A) (l : list (string * A)) :
  c <> name -> assoc c (replace_assoc name v l) = assoc c l.
Proof.
  intros Hne. induction l as [|[k x] l IH]; simpl; [reflexivity|].
  destruct (String.eqb c k) eqn:E.
  - apply String.eqb_eq in E. subst k.
    destruct (String.eqb name c) eqn:E'; [|reflexivity].
    apply String.eqb_eq in E'. congruence.
  - exact IH.
Qed.

Lemma assoc_app {A} (c : string) (l1 l2 : list (string * A)) :
  assoc c (l1 ++ l2) =
  match assoc c l1 with Some v => Some v | None => assoc c l2 end.
Proof.
  induction l1 as [|[k x] l1 IH]; simpl; [reflexivity|].
  destruct (String.eqb c k); auto.
Qed.

Lemma get_set_column_same (d : frame) (c : string) (s : series) :
  get_column (set_column d c s) c = Some s.
Proof.
  unfold set_column, get_column.
  destruct (has_column d c) eqn:E; simpl.
  - now apply assoc_replace_same.
  - rewrite assoc_app. apply get_column_none in E. unfold get_column in E.
    rewrite E. simpl. now rewrite String.eqb_refl.
Qed.

Lemma get_set_column_other (d : frame) (name c : string) (s : series) :
  c <> name -> get_column (set_column d name s) c = get_column d c.
Proof.
  intros Hne. unfold set_column, get_column.
  destruct (has_column d name); simpl.
  - now apply assoc_replace_other.
  - rewrite assoc_app. destruct (assoc c (cols d)); [reflexivity|].
    simpl. destruct (String.eqb c name) eqn:E; [|reflexivity].
    apply String.eqb_eq in E. congruence.
Qed.

Lemma set_column_keeps (d : frame) (name c : string) (s : series) :
  In c (columns d) -> In c (columns (set_column d name s)).
Proof.
  unfold set_column, columns. destruct (has_column d name); simpl.
  - now rewrite replace_assoc_names.
  - rewrite map_app, in_app_iff. auto.
Qed.

Lemma set_column_names (d : frame) (name c : string) (s : series) :
  In c (columns (set_column d name s)) -> In c (columns d) \/ c = name.
Proof.
  unfold set_column, columns. destruct (has_column d name); simpl.
  - rewrite replace_assoc_names. auto.
  - rewrite map_app, in_app_iff. simpl. intuition.
Qed.

Lemma set_column_nrows (d : frame) (name : string) (s : series) :
  nrows (set_column d name s) = nrows d.
Proof. unfold set_column. now destruct (has_column d name). Qed.

Lemma drop_columns_names (d : frame) (names : list string) (c : string) :
  In c (columns (drop_columns d names)) <->
  In c (columns d) /\ Text.mem c names = false.
Proof.
  unfold drop_columns, columns. simpl.
  induction (cols d) as [|[k x] l IH]; simpl; [tauto|].
  destruct (Text.mem k names) eqn:E; simpl; rewrite IH.
  - split; [tauto|]. intros [[->|H] Hm]; [congruence | auto].
  - split; [intros [->|[H Hm]]; auto|]. intros [[->|H] Hm]; auto.
Qed.

Lemma select_rows_columns (d : frame) (mask : list bool) :
  columns (select_rows d mask) = columns d.
Proof.
  unfold select_rows, columns. simpl. rewrite map_map. reflexivity.
Qed.

Lemma assoc_map_series (f : series -> series) (c : string)
      (l : list (string * series)) :
  assoc c (map (fun kv => (fst kv, f (snd kv))) l) = option_map f (assoc c l).
Proof.
  induction l as [|[k x] l IH]; simpl; [reflexivity|].
  destruct (String.eqb c k); auto.
Qed.

Lemma select_rows_column (d : frame) (mask : list bool) (c : string) :
  get_column (select_rows d mask) c =
  option_map (fun s => mkSeries (s_dtype s) (filter_mask mask (s_cells s)))
             (get_column d c).
Proof.
  unfold select_rows, get_column. simpl.
  apply (assoc_map_series
           (fun s => mkSeries (s_dtype s) (filter_mask mask (s_cells s)))).
Qed.

Lemma select_rows_dtype (d : frame) (mask : list bool) (c : string) :
  column_dtype (select_rows d mask) c = column_dtype d c.
Proof.
  unfold column_dtype. rewrite select_rows_column.
  now destruct (get_column d c).
Qed.

(** ** The loop over the declared columns *)

Lemma astype_dtype (dt : dtype) (s s' : series) :
  astype dt s = inr s' -> s_dtype s' = dt.
Proof.
  unfold astype, bind, ret. destruct (mapM (cast_cell dt) (s_cells s)).
  - discriminate.
  - intros H. inversion H. reflexivity.
Qed.

Lemma ensure_column_eq (data : frame) (c : string) (dt : dtype) :
  ensure_column data (c, dt) = set_column data c (ensured data c dt).
Proof.
  unfold ensure_column, ensured.
  destruct (get_column data c); [|reflexivity].
  now destruct (astype dt s).
Qed.

Lemma ensured_dtype (data : frame) (c : string) (dt : dtype) :
  s_dtype (ensured data c dt) = dt.
Proof.
  unfold ensured. destruct (get_column data c); [|reflexivity].
  destruct (astype dt s) eqn:E; [reflexivity|].
  now apply astype_dtype in E.
Qed.

Lemma ensure_fold_other (l : list (string * dtype)) (d : frame) (c : string) :
  ~ In c (map fst l) ->
  get_column (fold_left ensure_column l d) c = get_column d c.
Proof.
  revert d. induction l as [|[c0 dt0] l IH]; intros d Hn; cbn [fold_left]; [reflexivity|].
  simpl in Hn. rewrite IH by tauto.
  rewrite ensure_column_eq. apply get_set_column_other. intros ->. tauto.
Qed.

Lemma ensure_fold_nrows (l : list (string * dtype)) (d : frame) :
  nrows (fold_left ensure_column l d) = nrows d.
Proof.
  revert d. induction l as [|[c0 dt0] l IH]; intros d; cbn [fold_left]; [reflexivity|].
  rewrite IH, ensure_column_eq. apply set_column_nrows.
Qed.

Lemma ensure_fold_keeps (l : list (string * dtype)) (d : frame) (c : string) :
  In c (columns d) -> In c (columns (fold_left ensure_column l d)).
Proof.
  revert d. induction l as [|[c0 dt0] l IH]; intros d H; cbn [fold_left]; [exact H|].
  apply IH. rewrite ensure_column_eq. now apply set_column_keeps.
Qed.

Lemma ensure_fold_names (l : list (string * dtype)) (d : frame) (c : string) :
  In c (columns (fold_left ensure_column l d)) ->
  In c (columns d) \/ In c (map fst l).
Proof.
  revert d. induction l as [|[c0 dt0] l IH]; intros d H; cbn [fold_left map fst In] in *; [auto|].
  apply IH in H. destruct H as [H|H]; [|auto].
  rewrite ensure_column_eq in H. apply set_column_names in H.
  destruct H as [H| ->]; auto.
Qed.

(** what the loop leaves in a declared column: the coerced column, or an
    all-missing column of the declared type *)
Lemma ensure_fold_column (l : list (string * dtype)) (d : frame)
      (c : string) (dt : dtype) :
  NoDup (map fst l) -> In (c, dt) l ->
  get_column (fold_left ensure_column l d) c = Some (ensured d c dt).
Proof.
  revert d. induction l as [|[c0 dt0] l IH]; intros d Hnd Hin; [destruct Hin|].
  simpl in Hnd. inversion Hnd as [|? ? Hnotin Hnd']. subst.
  cbn [fold_left]. destruct Hin as [Heq|Hin].
  - inversion Heq. subst. rewrite ensure_fold_other by exact Hnotin.
    rewrite ensure_column_eq. apply get_set_column_same.
  - assert (Hne : c <> c0).
    { intros ->. apply Hnotin. apply (in_map fst) in Hin. exact Hin. }
    rewrite (IH _ Hnd' Hin). f_equal. unfold ensured.
    rewrite ensure_column_eq, get_set_column_other by exact Hne.
    now rewrite set_column_nrows.
Qed.

Lemma required_nodup : NoDup (map fst required_columns).
Proof.
  simpl. repeat constructor; simpl; intuition discriminate.
Qed.

Lemma ensure_columns_column (data : frame) (c : string) (dt : dtype) :
  In (c, dt) required_columns ->
  get_column (ensure_columns data) c = Some (ensured data c dt).
Proof. apply ensure_fold_column, required_nodup. Qed.

(** ** The legacy column *)

Lemma split_legacy_keeps (data data' : frame) (c : string) :
  split_legacy_name data = inr data' ->
  In c (columns data) -> c <> "Name" -> In c (columns data').
Proof.
  unfold split_legacy_name, bind, ret. intros H Hin Hne.
  assert (Hm : Text.mem c ["Name"] = false).
  { simpl. rewrite orb_false_r. now apply String.eqb_neq. }
  destruct (has_column data "Name"); [|inversion H; subst; exact Hin].
  destruct (negb (has_column data "First Name") || negb (has_column data "Last Name"))%bool.
  - destruct (get_column data "Name") as [name|]; [|discriminate].
    destruct (str_accessor name) as [e|parts]; [discriminate|].
    inversion H. subst. apply drop_columns_names. split; [|exact Hm].
    now apply set_column_keeps, set_column_keeps.
  - inversion H. subst. apply drop_columns_names. auto.
Qed.

Lemma empty_frame_columns (names : list string) :
  columns (empty_frame names) = names.
Proof.
  unfold empty_frame, columns. simpl. rewrite map_map. simpl. apply map_id.
Qed.

(** ** [load_data]: the declared schema *)

Lemma filter_mask_all_na (mask : list bool) (l : list value) :
  Forall (fun v => v = VNa) l -> Forall (fun v => v = VNa) (filter_mask mask l).
Proof.
  intros H. revert mask. induction H as [|x l Hx Hl IH]; intros [|b m]; simpl;
    try constructor.
  destruct b; [constructor; auto | auto].
Qed.

Lemma empty_series_all_na (dt : dtype) (n : nat) :
  Forall (fun v => v = VNa) (s_cells (empty_series dt n)).
Proof.
  simpl. induction n; simpl; constructor; auto.
Qed.

Lemma load_data_from (w : world) (file_path : string) :
  fst (load_data w file_path) = fst (load_from (read_storage w file_path)).
Proof.
  unfold load_data. now destruct (load_from (read_storage w file_path)).
Qed.

(** C1, as stated, fails: a column of the file that the schema does not
    declare is still there after loading, so the columns of the loaded table
    are not the declared seven. *)
Lemma load_keeps_undeclared_column :
  ~ (forall c, In c (columns (fst (load_data (world_of csv_with_notes) "data.csv")))
               <-> In c required_names).
Proof.
  intros H.
  assert (Hm : Text.mem "Notes"
                 (columns (fst (load_data (world_of csv_with_notes) "data.csv")))
               = true) by (vm_compute; reflexivity).
  apply (proj1 (mem_In _ _)) in Hm. apply (proj1 (H "Notes")) in Hm.
  apply (proj2 (mem_In _ _)) in Hm. vm_compute in Hm. discriminate.
Qed.

(** When the body of [load_data] raises, the table returned has the seven
    declared names but untyped columns. *)
Fact load_failure_is_untyped :
  let d := fst (load_data (world_of csv_numeric_names) "data.csv") in
  columns d = required_names /\ column_dtype d "Customer ID" = Some DObject.
Proof. vm_compute. split; reflexivity. Qed.

(** C1, amended.  [load_data] is total: whatever the read gives (no file,
    an exception, any table), it returns a table.  That table has each of
    the seven declared columns.  When the body of the [try] block completes
    the table is its result, each declared column has its declared type, a
    declared column that was absent or whose coercion raised holds missing
    values only, and the columns of the file that the schema does not
    declare are kept, except those whose name contains [Unnamed:] and the
    legacy [Name]. *)
Theorem load_from_declared_schema (r : read_result) :
  let d := fst (load_from r) in
  (forall c, In c required_names -> In c (columns d)) /\
  (forall data0, read_and_clean r = inr data0 ->
     d = dropna_all (ensure_columns data0) /\
     (forall c dt, In (c, dt) required_columns ->
        exists s, get_column d c = Some s /\ s_dtype s = dt /\
          ((get_column data0 c = None \/
            exists s0 e, get_column data0 c = Some s0 /\ astype dt s0 = inl e) ->
           Forall (fun v => v = VNa) (s_cells s))) /\
     (forall d0 c, r = ReadOk d0 -> In c (columns d0) ->
        is_unnamed c = false -> c <> "Name" -> In c (columns d))).
Proof.
  unfold load_from, load_body, bind, ret. split.
  - intros c Hc. destruct (read_and_clean r) as [e|data0]; cbn [fst].
    + now rewrite empty_frame_columns.
    + unfold dropna_all. rewrite select_rows_columns.
      unfold required_names in Hc.
      apply in_map_iff in Hc. destruct Hc as [[c' dt] [Hfst Hin]].
      simpl in Hfst. subst c'.
      pose proof (ensure_columns_column data0 c dt Hin) as Hg.
      apply get_column_some in Hg. now apply mem_In in Hg.
  - intros data0 E. rewrite E. cbn [fst]. split; [reflexivity|]. split.
    + intros c dt Hin. unfold dropna_all. rewrite select_rows_column.
      rewrite (ensure_columns_column data0 c dt Hin). simpl.
      eexists. split; [reflexivity|]. simpl. split; [apply ensured_dtype|].
      intros Hcase. apply filter_mask_all_na. unfold ensured.
      destruct Hcase as [Hnone | (s0 & e & Hsome & Hfail)].
      * rewrite Hnone. apply empty_series_all_na.
      * rewrite Hsome, Hfail. apply empty_series_all_na.
    + intros d0 c -> Hin Hun Hne. unfold dropna_all.
      rewrite select_rows_columns. apply ensure_fold_keeps.
      simpl in E. apply (split_legacy_keeps _ _ c E); [|exact Hne].
      apply drop_columns_names. split; [exact Hin|].
      destruct (Text.mem c (filter is_unnamed (columns d0))) eqn:Em; [|reflexivity].
      apply mem_In in Em. apply filter_In in Em. destruct Em as [_ Em]. congruence.
Qed.

(** ** [load_data]: the legacy [Name] column *)

Lemma get_drop_columns (d : frame) (names : list string) (c : string) :
  Text.mem c names = false ->
  get_column (drop_columns d names) c = get_column d c.
Proof.
  intros Hm. unfold get_column, drop_columns. simpl.
  induction (cols d) as [|[k x] l IH]; simpl; [reflexivity|].
  destruct (String.eqb c k) eqn:E.
  - apply String.eqb_eq in E. subst k. rewrite Hm. simpl.
    now rewrite String.eqb_refl.
  - destruct (Text.mem k names); simpl; [exact IH|]. now rewrite E.
Qed.

Lemma has_drop_columns (d : frame) (names : list string) (c : string) :
  has_column (drop_columns d names) c
  = (has_column d c && negb (Text.mem c names))%bool.
Proof.
  destruct (Text.mem c names) eqn:Hm.
  - rewrite andb_false_r. destruct (has_column (drop_columns d names) c) eqn:E;
      [|reflexivity].
    apply mem_In, drop_columns_names in E. destruct E. congruence.
  - rewrite andb_true_r.
    pose proof (get_drop_columns d names c Hm) as Hg.
    destruct (has_column d c) eqn:E.
    + destruct (get_column d c) as [s|] eqn:Es.
      * now apply get_column_some in Hg.
      * apply get_column_none in Es. congruence.
    + apply get_column_none. rewrite Hg. now apply get_column_none.
Qed.

Lemma unnamed_not_listed (d0 : frame) (c : string) :
  is_unnamed c = false ->
  Text.mem c (filter is_unnamed (columns d0)) = false.
Proof.
  intros H. destruct (Text.mem c _) eqn:E; [|reflexivity].
  apply mem_In, filter_In in E. destruct E. congruence.
Qed.

Lemma mapM_cast_object (l : list value) : mapM (cast_cell DObject) l = inr l.
Proof.
  induction l as [|v l IH]; simpl; [reflexivity|].
  unfold bind, ret in *. now rewrite IH.
Qed.

Lemma astype_object (s : series) :
  astype DObject s = inr (mkSeries DObject (s_cells s)).
Proof. unfold astype, bind, ret. now rewrite mapM_cast_object. Qed.

Lemma assoc_In {A} (c : string) (l : list (string * A)) (v : A) :
  assoc c l = Some v -> In (c, v) l.
Proof.
  induction l as [|[k x] l IH]; simpl; [discriminate|].
  destruct (String.eqb c k) eqn:E.
  - apply String.eqb_eq in E. intros H. inversion H. subst. auto.
  - auto.
Qed.

Lemma filter_mask_all_true {A} (f : nat -> bool) (l : list A) (start : nat) :
  (forall i, (start <= i < start + List.length l)%nat -> f i = true) ->
  filter_mask (map f (seq start (List.length l))) l = l.
Proof.
  revert start. induction l as [|x l IH]; intros start H; simpl; [reflexivity|].
  rewrite H by (simpl; lia). f_equal. apply IH.
  intros i Hi. apply H. simpl. lia.
Qed.

Lemma count_all_true (f : nat -> bool) (n start : nat) :
  (forall i, (start <= i < start + n)%nat -> f i = true) ->
  List.length (filter (fun b => b) (map f (seq start n))) = n.
Proof.
  revert start. induction n as [|n IH]; intros start H; simpl; [reflexivity|].
  rewrite H by lia. simpl. f_equal. apply IH. intros i Hi. apply H. lia.
Qed.

(** a table in which some column has a value in every row loses no row to
    [dropna] *)
Lemma dropna_all_full (d : frame) (c : string) (s : series) :
  get_column d c = Some s ->
  List.length (s_cells s) = nrows d ->
  Forall (fun v => is_na v = false) (s_cells s) ->
  nrows (dropna_all d) = nrows d /\
  forall c' s', get_column d c' = Some s' ->
    List.length (s_cells s') = nrows d ->
    get_column (dropna_all d) c' = Some s'.
Proof.
  intros Hg Hlen Hfull.
  assert (Hrow : forall i, (0 <= i < 0 + nrows d)%nat -> row_has_value d i = true).
  { intros i Hi. unfold row_has_value. apply existsb_exists.
    exists (c, s). split; [now apply assoc_In|]. simpl.
    rewrite Forall_forall in Hfull. rewrite (Hfull (nth i (s_cells s) VNa)).
    - reflexivity.
    - apply nth_In. lia. }
  split.
  - unfold dropna_all, select_rows. simpl. now apply count_all_true.
  - intros c' s' Hg' Hlen'. unfold dropna_all. rewrite select_rows_column, Hg'.
    simpl. rewrite <- Hlen' at 1. rewrite filter_mask_all_true.
    + now destruct s'.
    + intros i Hi. apply Hrow. lia.
Qed.

Lemma str_accessor_names (onames : list (option string)) :
  str_accessor (mkSeries DObject (map name_cell onames))
  = inr (map name_cell onames).
Proof.
  unfold str_accessor. cbn [s_dtype s_cells dtype_eqb andb].
  assert (H : (existsb is_str (map name_cell onames)
               || forallb is_na (map name_cell onames))%bool = true).
  { induction onames as [|[n|] r IH]; simpl; [reflexivity | reflexivity |].
    exact IH. }
  now rewrite H.
Qed.

(** The table [load_data] builds from a file with a textual [Name] column
    when [First Name] or [Last Name] is not a column of the file. *)
Lemma read_and_clean_split (d0 : frame) (onames : list (option string)) :
  get_column d0 "Name" = Some (mkSeries DObject (map name_cell onames)) ->
  (has_column d0 "First Name" && has_column d0 "Last Name")%bool = false ->
  exists data,
    read_and_clean (ReadOk d0) = inr data /\
    nrows data = nrows d0 /\
    get_column data "First Name" = Some (first_names onames) /\
    get_column data "Last Name" = Some (last_names onames) /\
    has_column data "Name" = false.
Proof.
  intros Hname Hfl. unfold read_and_clean, split_legacy_name.
  set (data := drop_columns d0 (filter is_unnamed (columns d0))).
  assert (Hget : forall c, is_unnamed c = false -> get_column data c = get_column d0 c).
  { intros c Hc. apply get_drop_columns, unnamed_not_listed, Hc. }
  assert (Hhas : forall c, is_unnamed c = false -> has_column data c = has_column d0 c).
  { intros c Hc. unfold data. rewrite has_drop_columns, unnamed_not_listed by exact Hc.
    apply andb_true_r. }
  rewrite (get_column_some data "Name" _ (eq_trans (Hget "Name" eq_refl) Hname)).
  rewrite (Hhas "First Name" eq_refl), (Hhas "Last Name" eq_refl).
  rewrite <- negb_andb, Hfl. simpl negb. cbv iota.
  rewrite (Hget "Name" eq_refl), Hname. unfold bind, ret.
  rewrite str_accessor_names. eexists. split; [reflexivity|].
  split; [|split; [|split]].
  - unfold drop_columns. cbn [nrows]. now rewrite !set_column_nrows.
  - rewrite get_drop_columns by reflexivity.
    rewrite get_set_column_other by discriminate.
    rewrite get_set_column_same. unfold first_names. now rewrite map_map.
  - rewrite get_drop_columns by reflexivity.
    rewrite get_set_column_same. unfold last_names. now rewrite map_map.
  - rewrite has_drop_columns. simpl. apply andb_false_r.
Qed.

Lemma load_from_ok (r : read_result) (data : frame) :
  read_and_clean r = inr data ->
  fst (load_from r) = dropna_all (ensure_columns data).
Proof.
  intros E. unfold load_from, load_body, bind, ret. now rewrite E.
Qed.

Lemma ensure_columns_object (data : frame) (c : string) (s : series) :
  In (c, DObject) required_columns ->
  get_column data c = Some s ->
  get_column (ensure_columns data) c = Some (mkSeries DObject (s_cells s)).
Proof.
  intros Hin Hg. rewrite (ensure_columns_column data c DObject Hin).
  unfold ensured. now rewrite Hg, astype_object.
Qed.

Lemma in_first_name : In ("First Name", DObject) required_columns.
Proof. simpl. tauto. Qed.

Lemma in_last_name : In ("Last Name", DObject) required_columns.
Proof. simpl. tauto. Qed.

(** the loaded table never has a [Name] column *)
Lemma load_drops_name (r : read_result) :
  has_column (fst (load_from r)) "Name" = false.
Proof.
  destruct (read_and_clean r) as [e|data] eqn:E.
  - unfold load_from, load_body, bind. rewrite E. reflexivity.
  - rewrite (load_from_ok r data E).
    destruct (has_column _ "Name") eqn:H; [|reflexivity].
    apply mem_In in H. unfold dropna_all in H.
    rewrite select_rows_columns in H. apply ensure_fold_names in H.
    destruct H as [H|H].
    + exfalso. apply mem_In in H. change (has_column data "Name" = true) in H.
      destruct r as [|e|d0]; simpl in E.
      * inversion E. subst. discriminate.
      * discriminate.
      * unfold split_legacy_name, bind, ret in E.
        set (d1 := drop_columns d0 _) in E.
        destruct (has_column d1 "Name") eqn:Hn.
        -- destruct (negb (has_column d1 "First Name") || negb (has_column d1 "Last Name"))%bool.
           ++ destruct (get_column d1 "Name"); [|discriminate].
              destruct (str_accessor s); [discriminate|].
              inversion E. subst. rewrite has_drop_columns in H.
              simpl in H. rewrite andb_false_r in H. discriminate.
           ++ inversion E. subst. rewrite has_drop_columns in H.
              simpl in H. rewrite andb_false_r in H. discriminate.
        -- inversion E. subst. congruence.
    + simpl in H. intuition discriminate.
Qed.

(** the result of loading a file whose [Name] column is split *)
Lemma load_split_columns (d0 : frame) (onames : list (option string)) :
  get_column d0 "Name" = Some (mkSeries DObject (map name_cell onames)) ->
  nrows d0 = List.length onames ->
  (has_column d0 "First Name" && has_column d0 "Last Name")%bool = false ->
  let d := fst (load_from (ReadOk d0)) in
  nrows d = List.length onames /\
  get_column d "First Name" = Some (first_names onames) /\
  get_column d "Last Name" = Some (last_names onames).
Proof.
  intros Hname Hrows Hfl.
  destruct (read_and_clean_split d0 onames Hname Hfl)
    as (data & E & Hn & Hf & Hl & _).
  cbv zeta. rewrite (load_from_ok _ _ E).
  pose proof (ensure_columns_object data _ _ in_first_name Hf) as Hf'.
  pose proof (ensure_columns_object data _ _ in_last_name Hl) as Hl'.
  assert (Hn' : nrows (ensure_columns data) = List.length onames).
  { unfold ensure_columns. rewrite ensure_fold_nrows. congruence. }
  destruct (dropna_all_full (ensure_columns data) "Last Name" _ Hl') as [Hr Hc].
  - simpl. now rewrite length_map.
  - simpl. apply Forall_forall. intros v Hv. apply in_map_iff in Hv.
    destruct Hv as (o & <- & _). destruct o as [n|]; simpl; [|reflexivity].
    now destruct (snd (split_first " " n)).
  - split; [congruence|]. split.
    + apply Hc; [exact Hf'|]. simpl. now rewrite length_map.
    + apply Hc; [exact Hl'|]. simpl. now rewrite length_map.
Qed.

Lemma split_first_spec (n : string) :
  split_on_first_space n (fst (split_first " " n))
    (match snd (split_first " " n) with Some r => r | None => EmptyString end).
Proof.
  induction n as [|a n IH]; simpl.
  - right. unfold no_space. simpl. tauto.
  - destruct (Ascii.eqb a " ") eqn:E.
    + apply Ascii.eqb_eq in E. subst a. left. simpl. split; [|reflexivity].
      unfold no_space. simpl. tauto.
    + apply Ascii.eqb_neq in E. destruct (split_first " " n) as [h t]. simpl in *.
      destruct IH as [[Hns ->] | (Hns & -> & Ht)].
      * left. split; [|reflexivity]. unfold no_space in *. simpl.
        intros [H|H]; [congruence | tauto].
      * right. rewrite Ht. split; [|tauto]. unfold no_space in *. simpl.
        intros [H|H]; [congruence | tauto].
Qed.

(** the cells of the two columns after a split, row by row *)
Lemma split_cells (d : frame) (onames : list (option string)) (i : nat)
      (o : option string) :
  get_column d "First Name" = Some (first_names onames) ->
  get_column d "Last Name" = Some (last_names onames) ->
  nth_error onames i = Some o ->
  match o with
  | Some n =>
      exists f l,
        cell d "First Name" i = Some (VStr f) /\
        cell d "Last Name" i = Some (VStr l) /\
        split_on_first_space n f l
  | None =>
      cell d "First Name" i = Some VNa /\
      cell d "Last Name" i = Some (VStr EmptyString)
  end.
Proof.
  intros Hf Hl Hi. unfold cell. rewrite Hf, Hl. cbn [first_names last_names s_cells].
  rewrite !nth_error_map, Hi. destruct o as [n|]; cbn [option_map name_cell].
  - exists (fst (split_first " " n)),
           (match snd (split_first " " n) with Some r => r | None => EmptyString end).
    split; [reflexivity|]. split.
    + simpl. now destruct (snd (split_first " " n)).
    + apply split_first_spec.
  - split; reflexivity.
Qed.

(** C6, as stated, fails: a [Name] column that holds numbers is no text
    column; the split raises and the table loaded has no row at all, so the
    names are not split. *)
Lemma load_numeric_names_not_split : ~ legacy_rule numeric_names_table.
Proof.
  intros H. destruct (H eq_refl eq_refl eq_refl) as [_ Hsplit].
  destruct (Hsplit 0%nat (VInt 42) eq_refl) as (f & l & Hf & _).
  vm_compute in Hf. discriminate.
Qed.

(** C6, amended.  When the table read has a [Name] column of text (an
    [object] column whose cells are texts or blank) and neither a
    [First Name] nor a [Last Name] column, the loaded table has no [Name]
    column and keeps every row; for each row with a name, [First Name] is
    the part of the name before its first space and [Last Name] the
    remainder, the empty text when the name has no space; for a row with a
    blank name, [First Name] is missing and [Last Name] is the empty
    text. *)
Theorem load_splits_legacy_name (d0 : frame) (onames : list (option string)) :
  get_column d0 "Name" = Some (mkSeries DObject (map name_cell onames)) ->
  nrows d0 = List.length onames ->
  has_column d0 "First Name" = false ->
  has_column d0 "Last Name" = false ->
  let d := fst (load_from (ReadOk d0)) in
  has_column d "Name" = false /\
  nrows d = List.length onames /\
  forall i o, nth_error onames i = Some o ->
    match o with
    | Some n =>
        exists f l,
          cell d "First Name" i = Some (VStr f) /\
          cell d "Last Name" i = Some (VStr l) /\
          split_on_first_space n f l
    | None =>
        cell d "First Name" i = Some VNa /\
        cell d "Last Name" i = Some (VStr EmptyString)
    end.
Proof.
  intros Hname Hrows Hf Hl.
  destruct (load_split_columns d0 onames Hname Hrows) as (Hn & Hfc & Hlc).
  { now rewrite Hf. }
  cbv zeta. split; [apply load_drops_name|]. split; [exact Hn|].
  intros i o Hi. now apply (split_cells _ onames).
Qed.

Lemma load_splits_legacy_name_witness :
  let d := fst (load_from (ReadOk legacy_table_with_blank)) in
  has_column d "Name" = false /\
  nrows d = 3%nat /\
  forall i o, nth_error [Some "Jane Doe"; None; Some "Prince"] i = Some o ->
    match o with
    | Some n =>
        exists f l,
          cell d "First Name" i = Some (VStr f) /\
          cell d "Last Name" i = Some (VStr l) /\
          split_on_first_space n f l
    | None =>
        cell d "First Name" i = Some VNa /\
        cell d "Last Name" i = Some (VStr EmptyString)
    end.
Proof.
  apply (load_splits_legacy_name legacy_table_with_blank
           [Some "Jane Doe"; None; Some "Prince"]);
    reflexivity.
Defined.

(** The two examples of the specification, from the text of the file. *)
Example load_jane_doe_and_prince :
  let d := fst (load_data (world_of legacy_csv) "data.csv") in
  cell d "First Name" 0 = Some (VStr "Jane") /\
  cell d "Last Name" 0 = Some (VStr "Doe") /\
  cell d "First Name" 1 = Some (VStr "Prince") /\
  cell d "Last Name" 1 = Some (VStr EmptyString) /\
  has_column d "Name" = false.
Proof. vm_compute. repeat split; reflexivity. Qed.





(** A [Last Name] column that was there is overwritten by the split, and a
    [Name] column is dropped without a split when both columns are there. *)
Example load_half_migrated :
  get_column (fst (load_from (ReadOk half_migrated_table))) "Last Name"
  = Some (mkSeries DObject [VStr "Doe"; VStr EmptyString]) /\
  cols (fst (load_from (ReadOk migrated_table)))
  = [("First Name", mkSeries DObject [VStr "Janet"]);
     ("Last Name", mkSeries DObject [VStr "Smith"]);
     ("Customer ID", mkSeries DInt64 [VNa]);
     ("Email", mkSeries DObject [VNa]);
     ("Phone", mkSeries DObject [VNa]);
     ("Status", mkSeries DObject [VNa]);
     ("Amount", mkSeries DFloat64 [VNa])].
Proof. vm_compute. split; reflexivity. Qed.

(** ** [add_customer]: validation *)

Lemma first_missing_given (details : dict) (field : string) (r : list string) :
  given details field ->
  first_missing (field :: r) details = first_missing r details.
Proof. intros (v & Hv & Ht). simpl. now rewrite Hv, Ht. Qed.

Lemma first_missing_lacking (details : dict) (field : string) (r : list string) :
  lacking details field ->
  first_missing (field :: r) details = Some field.
Proof.
  intros [Hn | (v & Hv & Ht)]; simpl.
  - now rewrite Hn.
  - now rewrite Hv, Ht.
Qed.

(** the validation stops at the first lacking field, before anything is
    computed or saved *)
Lemma add_rejects (data : frame) (details : dict) (file_path field : string)
      (w : world) :
  first_missing required_fields details = Some field ->
  add_customer data details file_path w
  = ("Error: " ++ field ++ " is required", w).
Proof. intros H. unfold add_customer, add_body. now rewrite H. Qed.

(** C3, as stated, fails: the message returned for a missing [Email] is
    not the text [Email is required]. *)
Lemma add_missing_email_message :
  fst (add_customer one_customer no_email "data.csv" (world_of schema_header))
  <> "Email is required".
Proof. vm_compute. discriminate. Qed.

(** C3, amended.  When [First Name] and [Last Name] are given and [Email]
    is absent or empty, [add_customer] returns the text
    [Error: Email is required], the first lacking field in the order of
    the validation, and leaves the world as it was: nothing is saved and
    nothing is shown. *)
Theorem add_requires_email (data : frame) (details : dict) (file_path : string)
        (w : world) :
  given details "First Name" ->
  given details "Last Name" ->
  lacking details "Email" ->
  add_customer data details file_path w = ("Error: Email is required", w).
Proof.
  intros Hf Hl He. apply (add_rejects data details file_path "Email" w).
  unfold required_fields.
  rewrite (first_missing_given _ _ _ Hf), (first_missing_given _ _ _ Hl).
  now apply first_missing_lacking.
Qed.

Lemma add_requires_email_witness :
  add_customer one_customer empty_email "data.csv" (world_of schema_header)
  = ("Error: Email is required", world_of schema_header).
Proof.
  apply add_requires_email.
  - exists (VStr "John"). split; reflexivity.
  - exists (VStr "Smith"). split; reflexivity.
  - right. exists (VStr EmptyString). split; reflexivity.
Defined.

(** C9.  When the five text fields are given and [Amount] is the integer
    [0] or the float [0.0], [add_customer] takes the amount as lacking: it
    returns [Error: Amount is required] and leaves the world as it was. *)
Theorem add_rejects_zero_amount (data : frame) (details : dict)
        (file_path : string) (w : world) :
  given details "First Name" ->
  given details "Last Name" ->
  given details "Email" ->
  given details "Phone" ->
  given details "Status" ->
  assoc "Amount" details = Some (VInt 0) \/
  (exists scale, assoc "Amount" details = Some (VFloat (mkFloat 0 scale))) ->
  add_customer data details file_path w = ("Error: Amount is required", w).
Proof.
  intros Hf Hl He Hp Hs Ha.
  apply (add_rejects data details file_path "Amount" w).
  unfold required_fields.
  rewrite (first_missing_given _ _ _ Hf), (first_missing_given _ _ _ Hl),
    (first_missing_given _ _ _ He), (first_missing_given _ _ _ Hp),
    (first_missing_given _ _ _ Hs).
  apply first_missing_lacking. right.
  destruct Ha as [Ha | [scale Ha]]; eexists; (split; [exact Ha | reflexivity]).
Qed.

Lemma add_rejects_zero_amount_witness :
  add_customer one_customer zero_amount "data.csv" (world_of schema_header)
  = ("Error: Amount is required", world_of schema_header).
Proof.
  apply add_rejects_zero_amount.
  - exists (VStr "John"). split; reflexivity.
  - exists (VStr "Smith"). split; reflexivity.
  - exists (VStr "john@smith.org"). split; reflexivity.
  - exists (VStr "+1 555 0100"). split; reflexivity.
  - exists (VStr "Prospect"). split; reflexivity.
  - right. exists 0%nat. reflexivity.
Defined.

(** ** [add_customer]: the identifier and the save *)

Lemma first_missing_none (fields : list string) (details : dict) :
  first_missing fields details = None <->
  forall f, In f fields -> given details f.
Proof.
  induction fields as [|f r IH]; simpl.
  - split; [intros _ g [] | reflexivity].
  - destruct (assoc f details) as [v|] eqn:Ev.
    + destruct (truthy v) eqn:Et.
      * rewrite IH. split.
        -- intros H g [<-|Hg]; [exists v; auto | auto].
        -- intros H g Hg. apply H. auto.
      * split; [discriminate|]. intros H.
        destruct (H f (or_introl eq_refl)) as (v' & Hv' & Ht'). congruence.
    + split; [discriminate|]. intros H.
      destruct (H f (or_introl eq_refl)) as (v' & Hv' & _). congruence.
Qed.

Lemma first_missing_some (fields : list string) (details : dict) (f : string) :
  first_missing fields details = Some f ->
  exists pre post,
    fields = (pre ++ f :: post)%list /\
    (forall g, In g pre -> given details g) /\
    lacking details f.
Proof.
  induction fields as [|g r IH]; simpl; [discriminate|].
  destruct (assoc g details) as [v|] eqn:Ev.
  - destruct (truthy v) eqn:Et.
    + intros H. destruct (IH H) as (pre & post & -> & Hpre & Hf).
      exists (g :: pre), post. split; [reflexivity|]. split; [|exact Hf].
      intros h [<-|Hh]; [exists v; auto | auto].
    + intros H. inversion H. subst. exists [], r. split; [reflexivity|].
      split; [intros h []|]. right. exists v. auto.
  - intros H. inversion H. subst. exists [], r. split; [reflexivity|].
    split; [intros h []|]. now left.
Qed.

Lemma given_not_lacking (details : dict) (f : string) :
  given details f -> ~ lacking details f.
Proof.
  intros (v & Hv & Ht) [Hn | (v' & Hv' & Ht')]; congruence.
Qed.

Lemma lacking_or_given (details : dict) (f : string) :
  lacking details f \/ given details f.
Proof.
  unfold lacking, given. destruct (assoc f details) as [v|]; [|auto].
  destruct (truthy v) eqn:E; [right | left; right]; exists v; auto.
Qed.

Lemma float_max_of_Z (a b : Z) :
  float_max (float_of_Z a) (float_of_Z b) = float_of_Z (Z.max a b).
Proof.
  unfold float_max, float_leb, float_of_Z, pow10. simpl.
  rewrite !Z.mul_1_r. destruct (Z.leb_spec a b).
  - now rewrite Z.max_r.
  - now rewrite Z.max_l by lia.
Qed.

Lemma fold_float_max (zs : list Z) (z : Z) :
  fold_left (fun m x => float_max m match numeric x with
                                     | Some f => f
                                     | None => float_of_Z 0
                                     end)
            (map VInt zs) (float_of_Z z)
  = float_of_Z (fold_left Z.max zs z).
Proof.
  revert z. induction zs as [|a zs IH]; intros z; simpl; [reflexivity|].
  rewrite float_max_of_Z. apply IH.
Qed.

Lemma fold_max_bounds (zs : list Z) (z : Z) :
  is_max (fold_left Z.max zs z) (z :: zs).
Proof.
  unfold is_max. revert z. induction zs as [|a zs IH]; intros z; simpl.
  - split; [now left|]. intros x [Hx|[]]. lia.
  - destruct (IH (Z.max z a)) as [Hin Hle]. split.
    + destruct Hin as [Heq|Hin]; [|right; right; exact Hin].
      rewrite <- Heq.
      destruct (Z.max_spec z a) as [[_ ->]|[_ ->]]; [right; left | left];
        reflexivity.
    + pose proof (Hle (Z.max z a) (or_introl eq_refl)) as Hz.
      intros x [Hx|[Hx|Hx]]; [lia | lia | apply Hle; right; exact Hx].
Qed.

Lemma is_max_unique (ids : list Z) (m m' : Z) :
  is_max m ids -> is_max m' ids -> m = m'.
Proof.
  intros [Hin Hle] [Hin' Hle']. apply Hle in Hin'. apply Hle' in Hin. lia.
Qed.

Lemma filter_present_ints (ids : list Z) :
  filter (fun v => negb (is_na v)) (map VInt ids) = map VInt ids.
Proof. induction ids; simpl; congruence. Qed.

Lemma no_text_in_ints (ids : list Z) : existsb is_str (map VInt ids) = false.
Proof. induction ids; simpl; auto. Qed.

Lemma succ_trunc_of_Z (z : Z) : succ_trunc (float_of_Z z) = z + 1.
Proof. unfold succ_trunc, float_of_Z, pow10. simpl. apply Z.quot_1_r. Qed.

Lemma wrap_int64_small (z : Z) :
  - 2 ^ 63 <= z < 2 ^ 63 -> wrap_int64 z = z.
Proof.
  intros H. unfold wrap_int64. rewrite Z.mod_small; lia.
Qed.

(** [int(max + 1)] over a column whose present cells are the integers
    [ids], when the sum stays within 64 bits *)
Lemma max_plus_one_cells (dt : dtype) (cells : list value) (ids : list Z) (m : Z) :
  filter (fun v => negb (is_na v)) cells = map VInt ids ->
  is_max m ids ->
  - 2 ^ 63 <= m < 2 ^ 63 - 1 ->
  max_plus_one (mkSeries dt cells) = inr (m + 1).
Proof.
  intros Hp Hm Hb. unfold max_plus_one. cbn [s_cells s_dtype].
  rewrite Hp, no_text_in_ints.
  destruct ids as [|z zs]; [destruct Hm as [[] _]|].
  cbn [map]. cbn [numeric]. rewrite fold_float_max, succ_trunc_of_Z.
  rewrite (is_max_unique (z :: zs) _ m (fold_max_bounds zs z) Hm).
  unfold ret. f_equal. destruct dt; try reflexivity;
    apply wrap_int64_small; lia.
Qed.

Lemma max_plus_one_ints (dt : dtype) (ids : list Z) (m : Z) :
  is_max m ids ->
  - 2 ^ 63 <= m < 2 ^ 63 - 1 ->
  max_plus_one (mkSeries dt (map VInt ids)) = inr (m + 1).
Proof.
  apply max_plus_one_cells, filter_present_ints.
Qed.

Lemma filter_present_cells (oids : list (option Z)) :
  filter (fun v => negb (is_na v)) (map id_cell oids)
  = map VInt (present_ids oids).
Proof.
  induction oids as [|[z|] r IH]; simpl; congruence.
Qed.

Lemma add_saves (data : frame) (details : dict) (file_path : string)
      (w : world) (new_id : Z) :
  first_missing required_fields details = None ->
  new_customer_id data = inr new_id ->
  can_write w file_path = true ->
  add_customer data details file_path w
  = ("Customer added successfully with ID " ++ Text.of_Z new_id,
     show (StSuccess ("Data successfully saved to " ++ file_path))
          (write_file w file_path
             (Csv.to_csv (with_new_record data details new_id)))).
Proof.
  intros Hv Hid Hw. unfold add_customer, add_body, save_data.
  now rewrite Hv, Hid, Hw.
Qed.

(** X1.  Validation stops at the first lacking field.  When some required field
    is lacking, [add_customer] names one field only: the first lacking one
    in the order [First Name], [Last Name], [Email], [Phone], [Status],
    [Amount]; every field before it is given.  The world is left as it
    was. *)
Theorem add_names_first_lacking_field (data : frame) (details : dict)
        (file_path : string) (w : world) (f : string) :
  In f required_fields ->
  lacking details f ->
  exists g pre post,
    required_fields = (pre ++ g :: post)%list /\
    (forall h, In h pre -> given details h) /\
    lacking details g /\
    add_customer data details file_path w
    = ("Error: " ++ g ++ " is required", w).
Proof.
  intros Hin Hl.
  destruct (first_missing required_fields details) as [g|] eqn:E.
  - destruct (first_missing_some _ _ _ E) as (pre & post & Heq & Hpre & Hg).
    exists g, pre, post. repeat split; auto. now apply add_rejects.
  - exfalso. apply (given_not_lacking details f); [|exact Hl].
    exact (proj1 (first_missing_none _ _) E f Hin).
Qed.

Lemma add_names_first_lacking_field_witness :
  exists g pre post,
    required_fields = (pre ++ g :: post)%list /\
    (forall h, In h pre -> given two_lacking h) /\
    lacking two_lacking g /\
    add_customer one_customer two_lacking "data.csv" empty_world
    = ("Error: " ++ g ++ " is required", empty_world).
Proof.
  apply (add_names_first_lacking_field one_customer two_lacking "data.csv"
           empty_world "Phone").
  - simpl. tauto.
  - left. reflexivity.
Defined.

(** X2.  The first identifier.  When the six fields are given and the path can
    be written, a table without rows or columns, or without a
    [Customer ID] column, gets the new customer under identifier 1: the
    message says so and the table saved is the old one with the new
    record. *)
Theorem add_first_customer (data : frame) (details : dict) (file_path : string)
        (w : world) :
  (forall f, In f required_fields -> given details f) ->
  can_write w file_path = true ->
  frame_empty data = true \/ has_column data "Customer ID" = false ->
  add_customer data details file_path w
  = ("Customer added successfully with ID 1",
     show (StSuccess ("Data successfully saved to " ++ file_path))
          (write_file w file_path
             (Csv.to_csv (with_new_record data details 1)))).
Proof.
  intros Hg Hw Hcase.
  apply (add_saves data details file_path w 1);
    [now apply first_missing_none | | exact Hw].
  unfold new_customer_id. destruct (frame_empty data); [reflexivity|].
  destruct Hcase as [Hc|Hc]; [discriminate|].
  apply get_column_none in Hc. now rewrite Hc.
Qed.

Lemma john_given : forall f, In f required_fields -> given john f.
Proof.
  intros f Hf. simpl in Hf.
  destruct Hf as [<-|[<-|[<-|[<-|[<-|[<-|[]]]]]]]; eexists; split; reflexivity.
Qed.

Lemma add_first_customer_witness :
  add_customer (empty_frame required_names) john "data.csv" empty_world
  = ("Customer added successfully with ID 1",
     show (StSuccess ("Data successfully saved to " ++ "data.csv"))
          (write_file empty_world "data.csv"
             (Csv.to_csv (with_new_record (empty_frame required_names) john 1)))).
Proof.
  apply add_first_customer; [exact john_given | reflexivity | left; reflexivity].
Defined.

(** X3.  The next identifier.  When the six fields are given, the path can be
    written and the table has rows whose [Customer ID] cells are the
    integers [ids] with greatest element [m], [m + 1] still being a 64-bit
    integer, the new customer gets [m + 1], which no row of the table has;
    the table saved is the old one with the new record. *)
Theorem add_next_customer (data : frame) (details : dict) (file_path : string)
        (w : world) (dt : dtype) (ids : list Z) (m : Z) :
  (forall f, In f required_fields -> given details f) ->
  can_write w file_path = true ->
  frame_empty data = false ->
  get_column data "Customer ID" = Some (mkSeries dt (map VInt ids)) ->
  is_max m ids ->
  - 2 ^ 63 <= m < 2 ^ 63 - 1 ->
  ~ In (m + 1) ids /\
  add_customer data details file_path w
  = ("Customer added successfully with ID " ++ Text.of_Z (m + 1),
     show (StSuccess ("Data successfully saved to " ++ file_path))
          (write_file w file_path
             (Csv.to_csv (with_new_record data details (m + 1))))).
Proof.
  intros Hg Hw He Hids Hm Hb. split.
  - intros Hin. apply (proj2 Hm) in Hin. lia.
  - apply (add_saves data details file_path w (m + 1));
      [now apply first_missing_none | | exact Hw].
    unfold new_customer_id. rewrite He, Hids. now apply max_plus_one_ints.
Qed.

Lemma add_next_customer_witness :
  ~ In (2 + 1) [1; 2] /\
  add_customer two_customers john "data.csv" empty_world
  = ("Customer added successfully with ID " ++ Text.of_Z (2 + 1),
     show (StSuccess ("Data successfully saved to " ++ "data.csv"))
          (write_file empty_world "data.csv"
             (Csv.to_csv (with_new_record two_customers john (2 + 1))))).
Proof.
  apply (add_next_customer two_customers john "data.csv" empty_world
           DInt64 [1; 2] 2).
  - exact john_given.
  - reflexivity.
  - reflexivity.
  - reflexivity.
  - split; [simpl; tauto|]. intros z [<-|[<-|[]]]; lia.
  - lia.
Defined.

Lemma filter_present_all_na (l : list value) :
  Forall (fun v => v = VNa) l -> filter (fun v => negb (is_na v)) l = [].
Proof.
  induction 1 as [|v l Hv _ IH]; simpl; [reflexivity|]. now rewrite Hv.
Qed.

(** X4.  A table without any identifier.  When the table has rows but every
    [Customer ID] cell is missing, no identifier can be computed:
    [add_customer] returns an error text and leaves the world as it was,
    even though the six fields are given. *)
Theorem add_fails_without_identifiers (data : frame) (details : dict)
        (file_path : string) (w : world) (ids : series) :
  (forall f, In f required_fields -> given details f) ->
  frame_empty data = false ->
  get_column data "Customer ID" = Some ids ->
  Forall (fun v => v = VNa) (s_cells ids) ->
  exists e,
    add_customer data details file_path w
    = ("Error adding customer: " ++ exn_str e, w).
Proof.
  intros Hg He Hids Hna. unfold add_customer, add_body.
  rewrite (proj2 (first_missing_none _ _) Hg).
  unfold new_customer_id. rewrite He, Hids. unfold max_plus_one.
  rewrite (filter_present_all_na _ Hna). eexists. reflexivity.
Qed.

Lemma add_fails_without_identifiers_witness :
  exists e,
    add_customer customer_without_id john "data.csv" empty_world
    = ("Error adding customer: " ++ exn_str e, empty_world).
Proof.
  apply (add_fails_without_identifiers customer_without_id john "data.csv"
           empty_world (mkSeries DInt64 [VNa])).
  - exact john_given.
  - reflexivity.
  - reflexivity.
  - repeat constructor.
Defined.

(** X5.  A failed save.  When the six fields are given and an identifier is
    computed but the path cannot be written, [add_customer] returns an
    error text; no file changes, and the page shows the error of the save. *)
Theorem add_reports_failed_save (data : frame) (details : dict)
        (file_path : string) (w : world) (new_id : Z) :
  (forall f, In f required_fields -> given details f) ->
  new_customer_id data = inr new_id ->
  can_write w file_path = false ->
  exists e,
    let '(msg, w') := add_customer data details file_path w in
    msg = "Error adding customer: " ++ exn_str e /\
    files w' = files w /\
    page w' = StError ("Error saving data to " ++ file_path ++ ": " ++ exn_str e)
              :: page w.
Proof.
  intros Hg Hid Hw. unfold add_customer, add_body, save_data.
  rewrite (proj2 (first_missing_none _ _) Hg), Hid, Hw.
  eexists. cbv beta iota zeta. repeat split; reflexivity.
Qed.

Lemma add_reports_failed_save_witness :
  exists e,
    let '(msg, w') := add_customer one_customer john "data.csv" locked_world in
    msg = "Error adding customer: " ++ exn_str e /\
    files w' = files locked_world /\
    page w' = StError ("Error saving data to " ++ "data.csv" ++ ": " ++ exn_str e)
              :: page locked_world.
Proof.
  apply (add_reports_failed_save one_customer john "data.csv" locked_world 2);
    [exact john_given | reflexivity | reflexivity].
Defined.

(** ** [add_customer]: the table saved *)


Lemma assoc_filter_key {A} (p : string -> bool) (c : string)
      (l : list (string * A)) :
  p c = true -> assoc c (filter (fun kv => p (fst kv)) l) = assoc c l.
Proof.
  intros Hp. induction l as [|[k x] l IH]; simpl; [reflexivity|].
  destruct (String.eqb c k) eqn:E.
  - apply String.eqb_eq in E. subst k. rewrite Hp. simpl.
    now rewrite String.eqb_refl.
  - destruct (p k); simpl; [now rewrite E | exact IH].
Qed.


Lemma same_cell_stored (dt : dtype) (v : value) : same_cell v (stored dt v).
Proof.
  destruct dt, v; simpl; try (left; reflexivity).
  right. eexists. split; reflexivity.
Qed.






(** ** [add_customer]: the rule of the identifiers *)

(** C2, as stated, fails: identifiers are 64-bit integers.  After the
    greatest of them the sum wraps around, and the customer is added under
    the least 64-bit integer, not under the maximum plus 1. *)
Lemma add_after_last_id_wraps :
  ~ next_id_rule last_id_table john [9223372036854775807].
Proof.
  intros H.
  assert (Hm : is_max 9223372036854775807 [9223372036854775807]).
  { split; [now left|]. intros z [<-|[]]. lia. }
  apply H in Hm. vm_compute in Hm. discriminate.
Qed.

(** C2, amended.  With the six fields given and a path that can be
    written: [add_customer] assigns identifier 1 when the table is empty;
    otherwise, when the [Customer ID] cells are integers or missing and the
    greatest integer [m] among them is below the greatest 64-bit integer,
    it assigns [m + 1]; in both cases it reports the identifier and saves
    the table with the new record.  In particular, from an empty storage:
    a first customer gets 1, a second gets 2, and once the customer 2 is
    deleted a third customer gets 2 again. *)
Theorem add_assigns_identifier (data : frame) (details : dict)
        (file_path : string) (w : world) :
  (forall f, In f required_fields -> given details f) ->
  can_write w file_path = true ->
  (frame_empty data = true ->
   add_customer data details file_path w
   = ("Customer added successfully with ID 1",
      show (StSuccess ("Data successfully saved to " ++ file_path))
           (write_file w file_path
              (Csv.to_csv (with_new_record data details 1))))) /\
  (forall dt oids m,
     frame_empty data = false ->
     get_column data "Customer ID" = Some (mkSeries dt (map id_cell oids)) ->
     is_max m (present_ids oids) ->
     - 2 ^ 63 <= m < 2 ^ 63 - 1 ->
     add_customer data details file_path w
     = ("Customer added successfully with ID " ++ Text.of_Z (m + 1),
        show (StSuccess ("Data successfully saved to " ++ file_path))
             (write_file w file_path
                (Csv.to_csv (with_new_record data details (m + 1)))))) /\
  reuse_session
  = ["Customer added successfully with ID 1";
     "Customer added successfully with ID 2";
     "Customer with ID 2 deleted successfully";
     "Customer added successfully with ID 2"].
Proof.
  intros Hg Hw. apply (proj2 (first_missing_none _ _)) in Hg.
  split; [|split].
  - intros He. apply (add_saves data details file_path w 1 Hg); [|exact Hw].
    unfold new_customer_id. now rewrite He.
  - intros dt oids m He Hids Hm Hb.
    apply (add_saves data details file_path w (m + 1) Hg); [|exact Hw].
    unfold new_customer_id. rewrite He, Hids.
    apply (max_plus_one_cells dt _ (present_ids oids) m);
      [apply filter_present_cells | exact Hm | exact Hb].
  - vm_compute. reflexivity.
Qed.

Lemma add_assigns_identifier_witness :
  add_customer partly_identified john "data.csv" empty_world
  = ("Customer added successfully with ID " ++ Text.of_Z (2 + 1),
     show (StSuccess ("Data successfully saved to " ++ "data.csv"))
          (write_file empty_world "data.csv"
             (Csv.to_csv (with_new_record partly_identified john (2 + 1))))).
Proof.
  refine (proj1 (proj2 (add_assigns_identifier partly_identified john "data.csv"
                          empty_world john_given eq_refl))
                DInt64 [Some 1; None; Some 2] 2 eq_refl eq_refl _ _).
  - split; [simpl; tauto|]. intros z [<-|[<-|[]]]; lia.
  - lia.
Defined.

(** ** Tables row by row *)

(** the rows of the columns [cs] of a table of [n] rows *)
Lemma rows_unfold (d : frame) :
  rows d = map (fun i => map (fun kv => (s_dtype (snd kv),
                                         nth i (s_cells (snd kv)) VNa)) (cols d))
               (seq 0 (nrows d)).
Proof. reflexivity. Qed.

Lemma select_rows_nil_mask (d : frame) : rows (select_rows d []) = [].
Proof. reflexivity. Qed.

Lemma nth_tl {A} (i : nat) (l : list A) (x : A) : nth (S i) l x = nth i (tl l) x.
Proof. destruct l; [now destruct i | reflexivity]. Qed.

Lemma rows_cons (d : frame) (n : nat) :
  nrows d = S n ->
  rows d = typed_row d 0 :: rows (tail_rows d).
Proof.
  intros Hn. unfold rows. rewrite Hn. cbn [seq map]. f_equal.
  unfold tail_rows at 2. cbn [nrows]. rewrite Hn. cbn [pred].
  rewrite <- seq_shift, map_map. apply map_ext. intros i.
  unfold typed_row, tail_rows. cbn [cols]. rewrite map_map.
  apply map_ext. intros kv. cbn [fst snd s_dtype s_cells].
  now rewrite nth_tl.
Qed.

Lemma tail_rows_wf (d : frame) : frame_wf d -> frame_wf (tail_rows d).
Proof.
  unfold frame_wf, tail_rows. cbn [cols nrows]. intros H.
  apply Forall_map. eapply Forall_impl; [|exact H].
  intros kv Hkv. cbn [snd s_cells]. rewrite <- Hkv.
  now destruct (s_cells (snd kv)).
Qed.

Lemma select_rows_skip (d : frame) (m : list bool) :
  frame_wf d -> nrows d <> 0%nat ->
  select_rows d (false :: m) = select_rows (tail_rows d) m.
Proof.
  intros Hwf Hn. unfold select_rows, tail_rows. cbn [filter cols]. f_equal.
  rewrite map_map. apply map_ext_in. intros kv Hin. cbn [fst snd s_dtype s_cells].
  unfold frame_wf in Hwf. rewrite Forall_forall in Hwf. specialize (Hwf kv Hin).
  destruct (s_cells (snd kv)); [simpl in Hwf; congruence | reflexivity].
Qed.

Lemma select_rows_take (d : frame) (m : list bool) :
  frame_wf d -> nrows d <> 0%nat ->
  rows (select_rows d (true :: m))
  = typed_row d 0 :: rows (select_rows (tail_rows d) m).
Proof.
  intros Hwf Hn.
  rewrite (rows_cons (select_rows d (true :: m))
                     (List.length (filter (fun b => b) m))) by reflexivity.
  f_equal.
  - unfold typed_row, select_rows. cbn [cols]. rewrite map_map.
    apply map_ext_in. intros kv Hin. cbn [fst snd s_dtype s_cells].
    unfold frame_wf in Hwf. rewrite Forall_forall in Hwf. specialize (Hwf kv Hin).
    destruct (s_cells (snd kv)); [simpl in Hwf; congruence | reflexivity].
  - f_equal. unfold select_rows, tail_rows. cbn [filter cols nrows pred List.length].
    f_equal. rewrite !map_map. apply map_ext_in. intros kv Hin.
    cbn [fst snd s_dtype s_cells].
    unfold frame_wf in Hwf. rewrite Forall_forall in Hwf. specialize (Hwf kv Hin).
    destruct (s_cells (snd kv)); [simpl in Hwf; congruence | reflexivity].
Qed.

(** selecting rows by a mask selects them in the row-by-row view *)
Lemma rows_select_rows (mask : list bool) (d : frame) :
  frame_wf d -> List.length mask = nrows d ->
  rows (select_rows d mask) = filter_mask mask (rows d).
Proof.
  revert d. induction mask as [|b m IH]; intros d Hwf Hlen.
  - reflexivity.
  - cbn [List.length] in Hlen. symmetry in Hlen.
    rewrite (rows_cons d _ Hlen). cbn [filter_mask].
    assert (Hn : nrows d <> 0%nat) by lia.
    assert (Hlen' : List.length m = nrows (tail_rows d)).
    { unfold tail_rows. cbn [nrows]. lia. }
    destruct b.
    + rewrite select_rows_take by assumption. f_equal.
      apply IH; [now apply tail_rows_wf | exact Hlen'].
    + rewrite select_rows_skip by assumption.
      apply IH; [now apply tail_rows_wf | exact Hlen'].
Qed.

Lemma filter_mask_map {A} (p : A -> bool) (l : list A) :
  filter_mask (map p l) l = filter p l.
Proof.
  induction l as [|x l IH]; simpl; [reflexivity|]. rewrite IH.
  now destruct (p x).
Qed.

Lemma rows_length (d : frame) : List.length (rows d) = nrows d.
Proof. unfold rows. now rewrite length_map, length_seq. Qed.

Lemma select_rows_wf (d : frame) (mask : list bool) :
  frame_wf d -> List.length mask = nrows d -> frame_wf (select_rows d mask).
Proof.
  intros Hwf Hlen. unfold frame_wf, select_rows in *. cbn [cols nrows].
  apply Forall_map. eapply Forall_impl; [|exact Hwf].
  intros kv Hkv. cbn [snd s_cells]. rewrite <- Hlen in Hkv. clear Hlen Hwf.
  revert Hkv. generalize (s_cells (snd kv)). clear.
  induction mask as [|b m IH]; intros [|x l] H; simpl in *; try congruence.
  injection H as H. destruct b; simpl; [f_equal|]; now apply IH.
Qed.

(** ** [update_customer] and [delete_customer]: the rows an identifier selects *)

Lemma float_eqb_of_Z (a b : Z) :
  float_eqb (float_of_Z a) (float_of_Z b) = Z.eqb a b.
Proof. unfold float_eqb, float_of_Z, pow10. simpl. now rewrite !Z.mul_1_r. Qed.

Lemma eq_mask_ints (dt : dtype) (ids : list Z) (id : Z) :
  eq_mask (mkSeries dt (map VInt ids)) id
  = map (fun z => Some (Z.eqb z id)) ids.
Proof.
  unfold eq_mask. cbn [s_cells s_dtype]. rewrite map_map.
  apply map_ext. intros z. unfold cell_eq. cbn [numeric].
  now rewrite float_eqb_of_Z.
Qed.

Lemma indexer_ints (dt : dtype) (ids : list Z) (id : Z) :
  as_indexer (eq_mask (mkSeries dt (map VInt ids)) id)
  = map (fun z => Z.eqb z id) ids.
Proof. rewrite eq_mask_ints. unfold as_indexer. now rewrite map_map. Qed.

Lemma py_any_ints (ids : list Z) (id : Z) :
  py_any (map (fun z => Some (Z.eqb z id)) ids)
  = inr (existsb (fun z => Z.eqb z id) ids).
Proof.
  induction ids as [|z ids IH]; simpl; [reflexivity|].
  destruct (Z.eqb z id); [reflexivity | exact IH].
Qed.

Lemma existsb_eqb_In (ids : list Z) (id : Z) :
  existsb (fun z => Z.eqb z id) ids = true <-> In id ids.
Proof.
  rewrite existsb_exists. split.
  - intros (z & Hz & E). apply Z.eqb_eq in E. now subst.
  - intros H. exists id. split; [exact H | apply Z.eqb_refl].
Qed.

Lemma existsb_eqb_not_In (ids : list Z) (id : Z) :
  ~ In id ids -> existsb (fun z => Z.eqb z id) ids = false.
Proof.
  intros H. destruct (existsb _ ids) eqn:E; [|reflexivity].
  now apply existsb_eqb_In in E.
Qed.

Lemma nth_error_mask_ints (ids : list Z) (id : Z) (i : nat) :
  nth_error (map (fun z => Z.eqb z id) ids) i = Some true <->
  nth_error ids i = Some id.
Proof.
  rewrite nth_error_map. destruct (nth_error ids i) as [z|]; simpl.
  - split; intros H; inversion H.
    + f_equal. now apply Z.eqb_eq.
    + now rewrite Z.eqb_refl.
  - split; discriminate.
Qed.

(** ** [update_customer] *)

(** X7.  An unknown identifier.  When the [Customer ID] cells of the table are
    the integers [ids] and the identifier is none of them,
    [update_customer] returns the not-found text; the table and the world
    are left as they were: nothing is assigned, saved or shown. *)
Theorem update_unknown_id (data : frame) (customer_id : Z) (updates : dict)
        (file_path : string) (w : world) (dt : dtype) (ids : list Z) :
  get_column data "Customer ID" = Some (mkSeries dt (map VInt ids)) ->
  ~ In customer_id ids ->
  update_customer data customer_id updates file_path w
  = ("No customer found with ID " ++ Text.of_Z customer_id, data, w).
Proof.
  intros Hids Hnot. unfold update_customer, update_body.
  rewrite Hids, eq_mask_ints, py_any_ints.
  now rewrite (existsb_eqb_not_In _ _ Hnot).
Qed.

Lemma update_unknown_id_witness :
  update_customer two_customers 7 [("Email", VStr "new@mail.org")] "data.csv"
                  empty_world
  = ("No customer found with ID " ++ Text.of_Z 7, two_customers, empty_world).
Proof.
  apply (update_unknown_id _ _ _ _ _ DInt64 [1; 2]); [reflexivity|].
  simpl. intros [H|[H|[]]]; discriminate.
Defined.

(** X8.  A table without a [Customer ID] column.  [update_customer] returns the
    text of the [KeyError] and changes nothing. *)
Theorem update_without_id_column (data : frame) (customer_id : Z)
        (updates : dict) (file_path : string) (w : world) :
  has_column data "Customer ID" = false ->
  update_customer data customer_id updates file_path w
  = ("Error updating customer: 'Customer ID'", data, w).
Proof.
  intros H. apply get_column_none in H.
  unfold update_customer, update_body. now rewrite H.
Qed.

Lemma update_without_id_column_witness :
  update_customer migrated_table 1 [("First Name", VStr "Jane")] "data.csv"
                  empty_world
  = ("Error updating customer: 'Customer ID'", migrated_table, empty_world).
Proof. apply update_without_id_column. reflexivity. Defined.

Lemma py_any_na (pre : list Z) (post : list (option bool)) (id : Z) :
  ~ In id pre ->
  exists e,
    py_any (map (fun z => Some (Z.eqb z id)) pre ++ None :: post) = inl e.
Proof.
  induction pre as [|z pre IH]; intros Hnot; simpl.
  - eexists. reflexivity.
  - destruct (Z.eqb_spec z id) as [->|Hne].
    + exfalso. apply Hnot. now left.
    + apply IH. intros H. apply Hnot. now right.
Qed.

(** X9.  A missing identifier met before a match.  In a nullable [Int64]
    column, when the rows before the first missing [Customer ID] do not
    have the identifier, the test [any(customer_mask)] raises:
    [update_customer] returns an error text instead of updating or of the
    not-found text, whatever the rows after hold, and changes nothing. *)
Theorem update_stops_at_missing_id (data : frame) (customer_id : Z)
        (updates : dict) (file_path : string) (w : world)
        (pre : list Z) (post : list value) :
  get_column data "Customer ID"
  = Some (mkSeries DInt64 (map VInt pre ++ VNa :: post)) ->
  ~ In customer_id pre ->
  exists e,
    update_customer data customer_id updates file_path w
    = ("Error updating customer: " ++ exn_str e, data, w).
Proof.
  intros Hids Hnot. unfold update_customer, update_body. rewrite Hids.
  unfold eq_mask. cbn [s_cells s_dtype]. rewrite map_app, map_map. cbn [map].
  cbn [cell_eq].
  rewrite (map_ext _ (fun z => Some (Z.eqb z customer_id))).
  - destruct (py_any_na pre (map (fun v => cell_eq DInt64 v customer_id) post)
                        customer_id Hnot) as [e He].
    rewrite He. exists e. reflexivity.
  - intros z. unfold cell_eq. cbn [numeric]. now rewrite float_eqb_of_Z.
Qed.

Lemma update_stops_at_missing_id_witness :
  exists e,
    update_customer customer_without_id 1 [("Email", VStr "jane@doe.org")]
                    "data.csv" empty_world
    = ("Error updating customer: " ++ exn_str e, customer_without_id, empty_world).
Proof.
  apply (update_stops_at_missing_id customer_without_id 1 _ _ _ [] []);
    [reflexivity | intros []].
Defined.

(** ** [update_customer]: what the assignments touch *)

Lemma same_cell_refl (v : value) : same_cell v v.
Proof. now left. Qed.

Lemma same_cell_trans (a b c : value) :
  same_cell a b -> same_cell b c -> same_cell a c.
Proof.
  intros [->|(z & -> & ->)] [->|(z' & Hb & ->)].
  - now left.
  - right. eauto.
  - right. eauto.
  - discriminate.
Qed.

Lemma put_cells_length (mask : list bool) (x : value) (l : list value) :
  List.length (put_cells mask x l) = List.length l.
Proof.
  revert l. induction mask as [|b m IH]; intros [|y l]; simpl; auto.
Qed.

Lemma put_cells_other (mask : list bool) (x : value) (l : list value) (i : nat) :
  nth_error mask i <> Some true ->
  nth_error (put_cells mask x l) i = nth_error l i.
Proof.
  revert l i. induction mask as [|b m IH]; intros [|y l] [|i] H; simpl in *;
    try reflexivity.
  - destruct b; [congruence | reflexivity].
  - now apply IH.
Qed.

Lemma put_cells_hit (mask : list bool) (x : value) (l : list value) (i : nat) :
  nth_error mask i = Some true -> (i < List.length l)%nat ->
  nth_error (put_cells mask x l) i = Some x.
Proof.
  revert l i. induction mask as [|b m IH]; intros [|y l] [|i] H Hlt; simpl in *;
    try discriminate; try lia.
  - now inversion H.
  - apply IH; [exact H | lia].
Qed.

Lemma set_masked_other (s s' : series) (mask : list bool) (v : value)
      (i : nat) (old : value) :
  set_masked s mask v = inr s' ->
  nth_error mask i <> Some true ->
  nth_error (s_cells s) i = Some old ->
  exists new, nth_error (s_cells s') i = Some new /\ same_cell old new.
Proof.
  unfold set_masked, bind, ret. destruct (dtype_after_set (s_dtype s) v) as [e|dt'];
    [discriminate|].
  intros H Hm Hold. inversion H. subst s'. cbn [s_cells].
  rewrite put_cells_other by exact Hm. rewrite nth_error_map, Hold.
  eexists. split; [reflexivity | apply same_cell_stored].
Qed.

Lemma set_masked_hit (s s' : series) (mask : list bool) (v : value) (i : nat) :
  set_masked s mask v = inr s' ->
  nth_error mask i = Some true ->
  (i < List.length (s_cells s))%nat ->
  dtype_after_set (s_dtype s) v = inr (s_dtype s') /\
  nth_error (s_cells s') i = Some (stored_set (s_dtype s') v).
Proof.
  unfold set_masked, bind, ret. destruct (dtype_after_set (s_dtype s) v) as [e|dt'];
    [discriminate|].
  intros H Hm Hlt. inversion H. subst s'. cbn [s_cells s_dtype].
  split; [reflexivity|]. apply put_cells_hit; [exact Hm|].
  now rewrite length_map.
Qed.

Lemma set_column_columns (d : frame) (c : string) (s : series) :
  has_column d c = true -> columns (set_column d c s) = columns d.
Proof.
  intros H. unfold set_column, columns. rewrite H. simpl.
  apply replace_assoc_names.
Qed.

(** the table after the loop of assignments, whether it ends or raises *)
Lemma apply_updates_frame (updates : dict) (mask : list bool) (data : frame) :
  let data' := fst (apply_updates data mask updates) in
  columns data' = columns data /\
  (forall c, assoc c updates = None -> get_column data' c = get_column data c) /\
  (forall c i v, nth_error mask i <> Some true -> cell data c i = Some v ->
     exists v', cell data' c i = Some v' /\ same_cell v v').
Proof.
  revert data. induction updates as [|[k u] r IH]; intros data; cbn [apply_updates].
  - cbn [fst]. split; [reflexivity|]. split; [reflexivity|].
    intros c i v _ H. exists v. split; [exact H | apply same_cell_refl].
  - destruct (get_column data k) as [s|] eqn:Ek.
    + destruct (set_masked s mask u) as [e|s'] eqn:Es.
      * cbn [fst]. split; [reflexivity|]. split; [reflexivity|].
        intros c i v _ H. exists v. split; [exact H | apply same_cell_refl].
      * destruct (IH (set_column data k s')) as (Hc & Ho & Hcell).
        cbv zeta in *. split; [|split].
        -- rewrite Hc. apply set_column_columns. eapply get_column_some, Ek.
        -- intros c Hn. cbn [assoc] in Hn.
           destruct (String.eqb c k) eqn:E; [discriminate|].
           rewrite (Ho c Hn). apply get_set_column_other.
           now apply String.eqb_neq.
        -- intros c i v Hm Hv.
           destruct (String.eqb c k) eqn:E.
           ++ apply String.eqb_eq in E. subst c. unfold cell in Hv.
              rewrite Ek in Hv.
              destruct (set_masked_other _ _ _ _ _ _ Es Hm Hv) as (v1 & Hv1 & Hs1).
              destruct (Hcell k i v1 Hm) as (v2 & Hv2 & Hs2).
              { unfold cell. now rewrite get_set_column_same. }
              exists v2. split; [exact Hv2 | now apply (same_cell_trans _ v1)].
           ++ apply Hcell; [exact Hm|]. unfold cell in *.
              rewrite get_set_column_other by now apply String.eqb_neq.
              exact Hv.
    + destruct (IH data) as (Hc & Ho & Hcell). cbv zeta in *.
      split; [exact Hc|]. split; [|exact Hcell].
      intros c Hn. apply Ho. cbn [assoc] in Hn.
      now destruct (String.eqb c k).
Qed.



Lemma dtype_after_set_ok (dt : dtype) (v : value) :
  dt <> DInt64 ->
  exists dt', dtype_after_set dt v = inr dt' /\ dt' <> DInt64.
Proof.
  intros H. destruct dt; [congruence| | | |]; destruct v; simpl;
    try (eexists; split; [reflexivity | discriminate]).
  destruct (float_to_Z f); eexists; (split; [reflexivity | discriminate]).
Qed.

Lemma set_masked_ok (s : series) (mask : list bool) (v : value) :
  s_dtype s <> DInt64 ->
  exists s', set_masked s mask v = inr s' /\ s_dtype s' <> DInt64.
Proof.
  intros H. destruct (dtype_after_set_ok _ v H) as (dt' & E & Hne).
  unfold set_masked, bind, ret. rewrite E. eexists. split; [reflexivity|].
  exact Hne.
Qed.

(** the loop of assignments when no key names a nullable integer column:
    it ends, and each column named holds the assignment of its key *)
Lemma apply_updates_written (updates : dict) (mask : list bool) (data : frame) :
  NoDup (map fst updates) ->
  (forall k s, In k (map fst updates) -> get_column data k = Some s ->
     s_dtype s <> DInt64) ->
  snd (apply_updates data mask updates) = None /\
  forall k v s, In (k, v) updates -> get_column data k = Some s ->
    exists s', set_masked s mask v = inr s' /\
               get_column (fst (apply_updates data mask updates)) k = Some s'.
Proof.
  revert data. induction updates as [|[k0 u0] r IH]; intros data Hnd Hdt.
  - split; [reflexivity|]. intros k v s [].
  - cbn [map fst] in Hnd. inversion Hnd as [|? ? Hnotin Hnd']. subst.
    cbn [apply_updates].
    destruct (get_column data k0) as [s0|] eqn:E0.
    + destruct (set_masked_ok s0 mask u0) as (s0' & Es & Hne).
      { apply (Hdt k0); [now left | exact E0]. }
      rewrite Es.
      assert (Hdt' : forall k s, In k (map fst r) ->
                get_column (set_column data k0 s0') k = Some s ->
                s_dtype s <> DInt64).
      { intros k s Hk. destruct (String.eqb k k0) eqn:E.
        - apply String.eqb_eq in E. subst k. rewrite get_set_column_same.
          intros H. inversion H. now subst.
        - rewrite get_set_column_other by now apply String.eqb_neq.
          apply Hdt. now right. }
      destruct (IH (set_column data k0 s0') Hnd' Hdt') as [Hnone Hw].
      split; [exact Hnone|].
      intros k v s [Heq|Hin] Hs.
      * inversion Heq. subst k0 u0. rewrite E0 in Hs. inversion Hs. subst s0.
        exists s0'. split; [exact Es|].
        destruct (apply_updates_frame r mask (set_column data k s0'))
          as (_ & Ho & _).
        cbv zeta in Ho. rewrite Ho.
        -- apply get_set_column_same.
        -- apply assoc_none_iff.
           destruct (Text.mem k (map fst r)) eqn:Em; [|reflexivity].
           apply mem_In in Em. contradiction.
      * assert (Hne' : k <> k0).
        { intros ->. apply Hnotin. apply (in_map fst) in Hin. exact Hin. }
        apply Hw; [exact Hin|].
        now rewrite get_set_column_other.
    + assert (Hdt' : forall k s, In k (map fst r) -> get_column data k = Some s ->
                s_dtype s <> DInt64).
      { intros k s Hk. apply Hdt. now right. }
      destruct (IH data Hnd' Hdt') as [Hnone Hw].
      split; [exact Hnone|].
      intros k v s [Heq|Hin] Hs; [inversion Heq; subst; congruence|].
      now apply Hw.
Qed.

(** X11.  A successful update.  When the [Customer ID] cells are the integers
    [ids], one of which is the identifier, no key of [updates] names a
    nullable integer column and the path can be written, [update_customer]
    reports success and saves the table it leaves.  In that table, for
    every key of [updates] that is a column, the cell of every row with the
    identifier holds the new value, as the column stores it. *)
Theorem update_overwrites_and_saves (data : frame) (customer_id : Z)
        (updates : dict) (file_path : string) (w : world)
        (dt : dtype) (ids : list Z) :
  get_column data "Customer ID" = Some (mkSeries dt (map VInt ids)) ->
  In customer_id ids ->
  NoDup (map fst updates) ->
  (forall k s, In k (map fst updates) -> get_column data k = Some s ->
     s_dtype s <> DInt64) ->
  can_write w file_path = true ->
  exists data',
    update_customer data customer_id updates file_path w
    = ("Customer with ID " ++ Text.of_Z customer_id ++ " updated successfully",
       data',
       show (StSuccess ("Data successfully saved to " ++ file_path))
            (write_file w file_path (Csv.to_csv data'))) /\
    forall k v s i, In (k, v) updates -> get_column data k = Some s ->
      nth_error ids i = Some customer_id ->
      (i < List.length (s_cells s))%nat ->
      exists dt', dtype_after_set (s_dtype s) v = inr dt' /\
                  cell data' k i = Some (stored_set dt' v).
Proof.
  intros Hids Hin Hnd Hdt Hw.
  set (mask := map (fun z => Z.eqb z customer_id) ids).
  destruct (apply_updates_written updates mask data Hnd Hdt) as [Hnone Hwr].
  exists (fst (apply_updates data mask updates)). split.
  - unfold update_customer, update_body, save_data.
    rewrite Hids, indexer_ints, eq_mask_ints, py_any_ints.
    rewrite (proj2 (existsb_eqb_In _ _) Hin). fold mask.
    destruct (apply_updates data mask updates) as [data' oe].
    cbn [snd] in Hnone. subst oe. now rewrite Hw.
  - intros k v s i Hk Hs Hi Hlt.
    destruct (Hwr k v s Hk Hs) as (s' & Es & Hg).
    destruct (set_masked_hit s s' mask v i Es) as [Hd Hc].
    + unfold mask. now apply nth_error_mask_ints.
    + exact Hlt.
    + exists (s_dtype s'). split; [exact Hd|]. unfold cell. now rewrite Hg.
Qed.

Lemma update_overwrites_and_saves_witness :
  exists data',
    update_customer two_customers 2
      [("Email", VStr "js@smith.org"); ("Amount", VInt 300)] "data.csv" empty_world
    = ("Customer with ID " ++ Text.of_Z 2 ++ " updated successfully",
       data',
       show (StSuccess ("Data successfully saved to " ++ "data.csv"))
            (write_file empty_world "data.csv" (Csv.to_csv data'))) /\
    forall k v s i,
      In (k, v) [("Email", VStr "js@smith.org"); ("Amount", VInt 300)] ->
      get_column two_customers k = Some s ->
      nth_error [1; 2] i = Some 2 ->
      (i < List.length (s_cells s))%nat ->
      exists dt', dtype_after_set (s_dtype s) v = inr dt' /\
                  cell data' k i = Some (stored_set dt' v).
Proof.
  apply (update_overwrites_and_saves two_customers 2 _ "data.csv" empty_world
           DInt64 [1; 2]).
  - reflexivity.
  - simpl. tauto.
  - repeat constructor; simpl; intuition discriminate.
  - intros k s [<-|[<-|[]]] H; vm_compute in H; inversion H; discriminate.
  - reflexivity.
Defined.

(** ** [update_customer]: the two claims on its effect *)









(** ** [delete_customer] *)

Lemma cell_eq_id_cell (dt : dtype) (o : option Z) (id : Z) :
  match cell_eq dt (id_cell o) id with Some b => b | None => false end
  = match o with Some z => Z.eqb z id | None => false end.
Proof.
  destruct o as [z|]; simpl.
  - apply float_eqb_of_Z.
  - now destruct dt.
Qed.

Lemma id_in_cells (dt : dtype) (oids : list (option Z)) (id : Z) :
  id_in (mkSeries dt (map id_cell oids)) id = true <-> In (Some id) oids.
Proof.
  unfold id_in, as_indexer, eq_mask. cbn [s_cells s_dtype]. rewrite !map_map.
  rewrite existsb_exists. split.
  - intros (b & Hb & ->). apply in_map_iff in Hb. destruct Hb as (o & Ho & Hin).
    rewrite cell_eq_id_cell in Ho. destruct o as [z|]; [|discriminate].
    apply Z.eqb_eq in Ho. now subst.
  - intros Hin. exists true. split; [|reflexivity]. apply in_map_iff.
    exists (Some id). split; [|exact Hin]. rewrite cell_eq_id_cell.
    apply Z.eqb_refl.
Qed.

Lemma ne_indexer_cells (dt : dtype) (oids : list (option Z)) (id : Z) :
  ne_indexer (mkSeries dt (map id_cell oids)) id
  = map (kept_on_delete dt id) oids.
Proof.
  unfold ne_indexer, eq_mask. cbn [s_cells s_dtype]. rewrite !map_map.
  apply map_ext. intros [z|]; simpl.
  - now rewrite float_eqb_of_Z.
  - now destruct dt.
Qed.

(** X12.  An unknown identifier.  When no [Customer ID] cell of the table is the
    identifier given (the cells being integers or missing),
    [delete_customer] returns the not-found text and leaves the world as it
    was. *)
Theorem delete_unknown_id (data : frame) (customer_id : Z) (file_path : string)
        (w : world) (dt : dtype) (oids : list (option Z)) :
  get_column data "Customer ID" = Some (mkSeries dt (map id_cell oids)) ->
  ~ In (Some customer_id) oids ->
  delete_customer data customer_id file_path w
  = ("No customer found with ID " ++ Text.of_Z customer_id, w).
Proof.
  intros Hids Hnot. unfold delete_customer, delete_body. rewrite Hids.
  destruct (id_in (mkSeries dt (map id_cell oids)) customer_id) eqn:E.
  - exfalso. apply Hnot. now apply (id_in_cells dt).
  - reflexivity.
Qed.

Lemma delete_unknown_id_witness :
  delete_customer partly_identified 5 "data.csv" empty_world
  = ("No customer found with ID " ++ Text.of_Z 5, empty_world).
Proof.
  apply (delete_unknown_id _ _ _ _ DInt64 [Some 1; None; Some 2]);
    [reflexivity|].
  simpl. intros [H|[H|[H|[]]]]; discriminate.
Defined.

(** X13.  A known identifier.  When some [Customer ID] cell of a rectangular
    table is the identifier given and the path can be written,
    [delete_customer] reports the deletion and saves a table with the same
    columns whose rows are, in their order, the rows [kept_on_delete]
    keeps: every row with the identifier is removed, every row with another
    identifier stays, and in a nullable [Int64] column the rows without
    identifier are removed as well. *)
Theorem delete_removes_matching_rows (data : frame) (customer_id : Z)
        (file_path : string) (w : world) (dt : dtype) (oids : list (option Z)) :
  frame_wf data ->
  get_column data "Customer ID" = Some (mkSeries dt (map id_cell oids)) ->
  In (Some customer_id) oids ->
  can_write w file_path = true ->
  exists saved,
    delete_customer data customer_id file_path w
    = ("Customer with ID " ++ Text.of_Z customer_id ++ " deleted successfully",
       show (StSuccess ("Data successfully saved to " ++ file_path))
            (write_file w file_path (Csv.to_csv saved))) /\
    columns saved = columns data /\
    rows saved = filter_mask (map (kept_on_delete dt customer_id) oids) (rows data).
Proof.
  intros Hwf Hids Hin Hw.
  exists (select_rows data (map (kept_on_delete dt customer_id) oids)).
  split; [|split].
  - unfold delete_customer, delete_body, save_data. rewrite Hids.
    rewrite (proj2 (id_in_cells dt oids customer_id) Hin). cbn [negb].
    now rewrite ne_indexer_cells, Hw.
  - apply select_rows_columns.
  - apply rows_select_rows; [exact Hwf|].
    unfold frame_wf in Hwf. rewrite Forall_forall in Hwf.
    specialize (Hwf _ (assoc_In _ _ _ Hids)). cbn [snd s_cells] in Hwf.
    now rewrite !length_map in *.
Qed.

Lemma delete_removes_matching_rows_witness :
  exists saved,
    delete_customer partly_identified 2 "data.csv" empty_world
    = ("Customer with ID " ++ Text.of_Z 2 ++ " deleted successfully",
       show (StSuccess ("Data successfully saved to " ++ "data.csv"))
            (write_file empty_world "data.csv" (Csv.to_csv saved))) /\
    columns saved = columns partly_identified /\
    rows saved = filter_mask (map (kept_on_delete DInt64 2) [Some 1; None; Some 2])
                             (rows partly_identified).
Proof.
  apply (delete_removes_matching_rows partly_identified 2 "data.csv" empty_world
           DInt64 [Some 1; None; Some 2]).
  - repeat constructor.
  - reflexivity.
  - simpl. tauto.
  - reflexivity.
Defined.

(** ** [search_records] *)

Lemma prefixb_spec (p s : string) :
  Text.prefixb p s = true <-> exists post, s = p ++ post.
Proof.
  revert s. induction p as [|a p IH]; intros s; simpl.
  - split; [intros _; now exists s | reflexivity].
  - destruct s as [|b s]; [split; [discriminate | intros [post H]; discriminate]|].
    rewrite andb_true_iff, Ascii.eqb_eq, IH. split.
    + intros [-> [post ->]]. now exists post.
    + intros [post H]. inversion H. eauto.
Qed.

Lemma contains_spec (q s : string) :
  Text.contains q s = true <-> Text.substring_of q s.
Proof.
  unfold Text.substring_of. induction s as [|b s IH].
  - cbn [Text.contains]. rewrite prefixb_spec. split.
    + intros [post H]. exists EmptyString, post. exact H.
    + intros (pre & post & H). destruct pre as [|a pre]; [|discriminate].
      exists post. exact H.
  - cbn [Text.contains]. rewrite orb_true_iff, IH, prefixb_spec. split.
    + intros [[post H] | (pre & post & H)].
      * exists EmptyString, post. exact H.
      * exists (String b pre), post. simpl. now rewrite H.
    + intros (pre & post & H). destruct pre as [|a pre].
      * left. exists post. exact H.
      * right. inversion H. eauto.
Qed.

Lemma contains_empty (s : string) : Text.contains EmptyString s = true.
Proof. destruct s; reflexivity. Qed.

Lemma re_compile_plain (pat : string) :
  re_plain pat = true ->
  re_compile pat = Some (map RChar (list_ascii_of_string pat)).
Proof.
  induction pat as [|c r IH]; simpl; [reflexivity|].
  rewrite !andb_true_iff, !negb_true_iff. intros [[Hs Hd] Hr].
  now rewrite Hs, Hd, (IH Hr).
Qed.

Lemma re_match_here_plain (pat s : string) :
  re_match_here (map RChar (list_ascii_of_string pat)) s = Text.prefixb pat s.
Proof.
  revert s. induction pat as [|c r IH]; intros s; simpl; [reflexivity|].
  destruct s as [|b s]; [reflexivity|]. now rewrite IH.
Qed.

Lemma re_search_plain (pat s : string) :
  re_search (map RChar (list_ascii_of_string pat)) s = Text.contains pat s.
Proof.
  induction s as [|b s IH]; cbn [re_search Text.contains];
    rewrite re_match_here_plain; [reflexivity | now rewrite IH].
Qed.

Lemma row_any_ext (p p' : string -> bool) (row : list (dtype * value)) :
  (forall s, p s = p' s) -> row_any p row = row_any p' row.
Proof.
  intros H. unfold row_any. induction row as [|tv row IH]; simpl;
    [reflexivity | now rewrite H, IH].
Qed.

Lemma filter_In_incl {A} (p p' : A -> bool) (l : list A) (x : A) :
  (forall y, p y = true -> p' y = true) ->
  In x (filter p l) -> In x (filter p' l).
Proof.
  intros H Hin. apply filter_In in Hin. apply filter_In.
  destruct Hin. auto.
Qed.

Lemma search_rows (data : frame) (query : string) (items : list re_item) :
  frame_wf data ->
  re_compile (Text.lower query) = Some items ->
  exists found,
    search_records data query = Some found /\
    columns found = columns data /\
    frame_wf found /\
    rows found = filter (row_any (re_search items)) (rows data).
Proof.
  intros Hwf Hc. unfold search_records. rewrite Hc.
  eexists. split; [reflexivity|]. split; [apply select_rows_columns|].
  assert (Hlen : List.length (map (row_any (re_search items)) (rows data))
                 = nrows data) by now rewrite length_map, rows_length.
  split; [now apply select_rows_wf|].
  rewrite rows_select_rows by assumption. apply filter_mask_map.
Qed.

(** X14.  The rows a search returns.  For a rectangular table and a query the
    model reads (as the pattern [items]), [search_records] returns a table
    with the same columns whose rows are exactly the rows of the table in
    which the pattern is found in the lower-case text of some cell; they
    come in the order they had, and none is left out. *)
Theorem search_selects_rows_in_order (data : frame) (query : string)
        (items : list re_item) :
  frame_wf data ->
  re_compile (Text.lower query) = Some items ->
  exists found,
    search_records data query = Some found /\
    columns found = columns data /\
    frame_wf found /\
    rows found = filter (row_any (re_search items)) (rows data).
Proof. apply search_rows. Qed.

Lemma search_selects_rows_in_order_witness :
  exists found,
    search_records two_customers "J.N" = Some found /\
    columns found = columns two_customers /\
    frame_wf found /\
    rows found
    = filter (row_any (re_search [RChar "j"; RAnyChar; RChar "n"]))
             (rows two_customers).
Proof.
  apply search_selects_rows_in_order; [repeat constructor | reflexivity].
Defined.

Lemma search_plain_rows (data : frame) (query : string) :
  frame_wf data ->
  re_plain (Text.lower query) = true ->
  exists found,
    search_records data query = Some found /\
    rows found = filter (row_any (Text.contains (Text.lower query))) (rows data).
Proof.
  intros Hwf Hp.
  destruct (search_rows data query _ Hwf (re_compile_plain _ Hp))
    as (found & Hs & _ & _ & Hr).
  exists found. split; [exact Hs|].
  rewrite Hr. apply filter_ext. intros row. apply row_any_ext.
  intros s. apply re_search_plain.
Qed.

(** X15.  Literal queries.  When the lower-case query has no character that is
    special in a regular expression, the rows returned are exactly those in
    which the lower-case text of some cell contains the lower-case query as
    a contiguous block. *)
Theorem search_plain_query_is_substring (data : frame) (query : string) :
  frame_wf data ->
  re_plain (Text.lower query) = true ->
  exists found,
    search_records data query = Some found /\
    rows found = filter (row_any (Text.contains (Text.lower query))) (rows data) /\
    forall s, Text.contains (Text.lower query) s = true <->
              Text.substring_of (Text.lower query) s.
Proof.
  intros Hwf Hp.
  destruct (search_plain_rows data query Hwf Hp) as (found & Hs & Hr).
  exists found. split; [exact Hs|]. split; [exact Hr|].
  intros s. apply contains_spec.
Qed.

Lemma search_plain_query_is_substring_witness :
  exists found,
    search_records two_customers "SMITH" = Some found /\
    rows found = filter (row_any (Text.contains (Text.lower "SMITH")))
                        (rows two_customers) /\
    forall s, Text.contains (Text.lower "SMITH") s = true <->
              Text.substring_of (Text.lower "SMITH") s.
Proof.
  apply search_plain_query_is_substring; [repeat constructor | reflexivity].
Defined.

(** X16.  Missing values are found as text.  A missing cell reads [nan] (or
    [<NA>] in a nullable column) once the table is turned into text, so a
    query that is [na] in lower case returns every row that has a missing
    cell. *)
Theorem search_na_finds_missing_cells (data : frame) (query : string) :
  frame_wf data ->
  Text.lower query = "na" ->
  exists found,
    search_records data query = Some found /\
    forall row dt, In row (rows data) -> In (dt, VNa) row -> In row (rows found).
Proof.
  intros Hwf Hq.
  destruct (search_plain_rows data query Hwf) as (found & Hs & Hr).
  { now rewrite Hq. }
  exists found. split; [exact Hs|].
  intros row dt Hrow Hna. rewrite Hr, Hq. apply filter_In. split; [exact Hrow|].
  unfold row_any. apply existsb_exists. exists (dt, VNa). split; [exact Hna|].
  now destruct dt.
Qed.

Lemma search_na_finds_missing_cells_witness :
  exists found,
    search_records customer_without_id "NA" = Some found /\
    forall row dt, In row (rows customer_without_id) -> In (dt, VNa) row ->
                   In row (rows found).
Proof.
  apply search_na_finds_missing_cells; [repeat constructor | reflexivity].
Defined.

Lemma filter_all {A} (p : A -> bool) (l : list A) :
  (forall x, In x l -> p x = true) -> filter p l = l.
Proof.
  induction l as [|x l IH]; intros H; simpl; [reflexivity|].
  rewrite (H x (or_introl eq_refl)). f_equal. apply IH.
  intros y Hy. apply H. now right.
Qed.

(** X17.  The empty query.  On a rectangular table that has a column, the empty
    query returns every row. *)
Theorem search_empty_query_returns_all (data : frame) :
  frame_wf data ->
  cols data <> [] ->
  exists found,
    search_records data EmptyString = Some found /\ rows found = rows data.
Proof.
  intros Hwf Hcols.
  destruct (search_plain_rows data EmptyString Hwf eq_refl)
    as (found & Hs & Hr).
  exists found. split; [exact Hs|]. rewrite Hr. apply filter_all.
  intros row Hrow. unfold rows in Hrow. apply in_map_iff in Hrow.
  destruct Hrow as (i & <- & _). unfold typed_row, row_any.
  destruct (cols data) as [|kv l]; [congruence|]. cbn [map existsb].
  cbn [Text.lower]. now rewrite contains_empty.
Qed.

Lemma search_empty_query_returns_all_witness :
  exists found,
    search_records two_customers EmptyString = Some found /\
    rows found = rows two_customers.
Proof.
  apply search_empty_query_returns_all; [repeat constructor | discriminate].
Defined.

Lemma lower_app (a b : string) :
  Text.lower (a ++ b) = Text.lower a ++ Text.lower b.
Proof. induction a as [|c a IH]; simpl; [reflexivity | now rewrite IH]. Qed.

Lemma re_compile_app (a b : string) :
  re_compile (a ++ b)
  = match re_compile a, re_compile b with
    | Some x, Some y => Some (x ++ y)%list
    | _, _ => None
    end.
Proof.
  induction a as [|c a IH]; simpl.
  - now destruct (re_compile b).
  - destruct (re_special c); [reflexivity|]. rewrite IH.
    destruct (re_compile a); [|reflexivity].
    now destruct (re_compile b).
Qed.

Lemma re_match_here_dot (ia ib : list re_item) (c : ascii) (s : string) :
  c <> Csv.nl ->
  re_match_here (ia ++ (if Ascii.eqb c "." then RAnyChar else RChar c) :: ib) s
  = true ->
  re_match_here (ia ++ RAnyChar :: ib) s = true.
Proof.
  intros Hnl. revert s. induction ia as [|it ia IH]; intros s.
  - cbn [app]. destruct (Ascii.eqb c "."); [auto|].
    destruct s as [|b s]; cbn [re_match_here]; [auto|].
    rewrite !andb_true_iff. intros [Hc Hr]. split; [|exact Hr].
    apply Ascii.eqb_eq in Hc. subst b. apply negb_true_iff.
    now apply Ascii.eqb_neq.
  - cbn [app]. destruct it, s as [|b s]; cbn [re_match_here]; auto;
      rewrite !andb_true_iff; intros [H1 H2]; auto.
Qed.

Lemma re_search_dot (ia ib : list re_item) (c : ascii) (s : string) :
  c <> Csv.nl ->
  re_search (ia ++ (if Ascii.eqb c "." then RAnyChar else RChar c) :: ib) s
  = true ->
  re_search (ia ++ RAnyChar :: ib) s = true.
Proof.
  intros Hnl. induction s as [|b s IH]; cbn [re_search].
  - now apply re_match_here_dot.
  - rewrite !orb_true_iff. intros [H|H]; [left | right; auto].
    now apply (re_match_here_dot ia ib c).
Qed.

Lemma row_any_incl (p p' : string -> bool) (row : list (dtype * value)) :
  (forall s, p s = true -> p' s = true) ->
  row_any p row = true -> row_any p' row = true.
Proof.
  intros H. unfold row_any. rewrite !existsb_exists.
  intros (tv & Hin & Hp). exists tv. auto.
Qed.

Lemma re_compile_dotted (pat : string) :
  re_dotted pat = true -> exists items, re_compile pat = Some items.
Proof.
  induction pat as [|c r IH]; simpl; [eauto|].
  rewrite andb_true_iff, negb_true_iff. intros [Hs Hr].
  destruct (IH Hr) as [items Hi]. rewrite Hs, Hi. simpl. eauto.
Qed.

(** X18.  The dot is a wildcard.  The query is read as a regular
    expression.  For a query whose characters are, in lower case, ordinary
    characters or dots (no other special character): the query with one of
    its characters, not a line feed, replaced by a dot returns every row
    the query returns. *)
Theorem search_dot_is_wildcard (data : frame) (q1 q2 : string) (c : ascii) :
  frame_wf data ->
  re_dotted (Text.lower (q1 ++ String c q2)) = true ->
  Text.lower_char c <> Csv.nl ->
  exists found found',
    search_records data (q1 ++ String c q2) = Some found /\
    search_records data (q1 ++ String "." q2) = Some found' /\
    forall row, In row (rows found) -> In row (rows found').
Proof.
  intros Hwf Hd Hnl.
  assert (Hc : exists ia ib,
             re_compile (Text.lower q1) = Some ia /\
             re_compile (Text.lower q2) = Some ib /\
             re_special (Text.lower_char c) = false).
  { destruct (re_compile_dotted _ Hd) as [items Hi].
    rewrite lower_app, re_compile_app in Hi.
    cbn [Text.lower re_compile] in Hi.
    destruct (re_compile (Text.lower q1)) as [ia|]; [|discriminate].
    destruct (re_special (Text.lower_char c)); [discriminate|].
    destruct (re_compile (Text.lower q2)) as [ib|]; [|discriminate].
    eauto. }
  destruct Hc as (ia & ib & Ha & Hb & Hsp).
  set (it := if Ascii.eqb (Text.lower_char c) "." then RAnyChar
             else RChar (Text.lower_char c)).
  destruct (search_rows data (q1 ++ String c q2)
              (ia ++ it :: ib) Hwf) as (f1 & Hf1 & _ & _ & Hr1).
  { rewrite lower_app, re_compile_app. cbn [Text.lower re_compile].
    now rewrite Ha, Hsp, Hb. }
  destruct (search_rows data (q1 ++ String "." q2)
              (ia ++ RAnyChar :: ib) Hwf) as (f2 & Hf2 & _ & _ & Hr2).
  { rewrite lower_app, re_compile_app. cbn [Text.lower re_compile].
    rewrite Ha, Hb. reflexivity. }
  exists f1, f2. split; [exact Hf1|]. split; [exact Hf2|].
  intros row. rewrite Hr1, Hr2.
  apply filter_In_incl. intros r. apply row_any_incl. intros s.
  now apply re_search_dot.
Qed.

Lemma search_dot_is_wildcard_witness :
  exists found found',
    search_records two_customers ("j" ++ String "o" "hn") = Some found /\
    search_records two_customers ("j" ++ String "." "hn") = Some found' /\
    forall row, In row (rows found) -> In row (rows found').
Proof.
  apply (search_dot_is_wildcard two_customers "j" "hn" "o").
  - repeat constructor.
  - reflexivity.
  - discriminate.
Defined.

(** ** [search_records]: the claim on literal queries *)

(** C4, as stated, fails: the query is a pattern.  [j.n] returns the row of
    Jane, in which no cell contains the text [j.n]. *)
Lemma search_pattern_is_not_literal : ~ literal_search_rule two_customers "j.n".
Proof.
  intros (found & Hs & Hr). vm_compute in Hs. inversion Hs. subst found.
  vm_compute in Hr. discriminate.
Qed.

(** C4, amended.  For a rectangular table and a query whose lower-case form
    has no character that is special in a regular expression,
    [search_records] returns a table with the same columns whose rows are
    exactly the rows in which the lower-case text of some cell contains the
    lower-case query as a contiguous block; they come in the order they had
    in the table, and none is left out. *)
Theorem search_literal_query (data : frame) (query : string) :
  frame_wf data ->
  re_plain (Text.lower query) = true ->
  exists found,
    search_records data query = Some found /\
    columns found = columns data /\
    rows found = filter (row_any (Text.contains (Text.lower query))) (rows data) /\
    forall row,
      row_any (Text.contains (Text.lower query)) row = true <->
      exists dt v,
        In (dt, v) row /\
        Text.substring_of (Text.lower query) (Text.lower (str_form dt v)).
Proof.
  intros Hwf Hp.
  destruct (search_rows data query _ Hwf (re_compile_plain _ Hp))
    as (found & Hs & Hc & _ & Hr).
  exists found. split; [exact Hs|]. split; [exact Hc|]. split.
  - rewrite Hr. apply filter_ext. intros row. apply row_any_ext.
    intros s. apply re_search_plain.
  - intros row. unfold row_any. rewrite existsb_exists. split.
    + intros ([dt v] & Hin & Hm). exists dt, v. split; [exact Hin|].
      now apply contains_spec.
    + intros (dt & v & Hin & Hm). exists (dt, v). split; [exact Hin|].
      now apply contains_spec.
Qed.

Lemma search_literal_query_witness :
  exists found,
    search_records two_customers "SMITH" = Some found /\
    columns found = columns two_customers /\
    rows found
    = filter (row_any (Text.contains (Text.lower "SMITH"))) (rows two_customers) /\
    forall row,
      row_any (Text.contains (Text.lower "SMITH")) row = true <->
      exists dt v,
        In (dt, v) row /\
        Text.substring_of (Text.lower "SMITH") (Text.lower (str_form dt v)).
Proof.
  apply search_literal_query; [repeat constructor | reflexivity].
Defined.

(** ** [load_data] and [save_data]: files and the page *)

(** X19.  No file.  When nothing exists at the path ([data.csv] standing for the
    empty path), [load_data] returns the seven declared columns with their
    declared types and no row, and shows nothing. *)
Theorem load_missing_file (w : world) (file_path : string) :
  path_exists w (if String.eqb file_path EmptyString then "data.csv" else file_path)
  = false ->
  load_data w file_path = (declared_empty, w).
Proof.
  unfold path_exists, load_data, read_storage. intros H.
  destruct (assoc _ (files w)); [discriminate|]. reflexivity.
Qed.

Lemma load_missing_file_witness :
  load_data empty_world EmptyString = (declared_empty, empty_world).
Proof. apply load_missing_file. reflexivity. Defined.

(** X20.  Loading only reads.  Whatever is stored, [load_data] leaves every file
    and the write permissions as they are; the page gets at most one note,
    an error. *)
Theorem load_changes_no_file (w : world) (file_path : string) :
  let w' := snd (load_data w file_path) in
  files w' = files w /\ unwritable w' = unwritable w /\
  (page w' = page w \/ exists msg, page w' = StError msg :: page w).
Proof.
  unfold load_data, load_from.
  destruct (load_body (read_storage w file_path)); cbn [snd show files unwritable page].
  - split; [reflexivity|]. split; [reflexivity|]. right. eauto.
  - auto.
Qed.

(** X21.  A legacy column that is not text.  When the table read has a [Name]
    column that is not an [object] column (names that are all numbers, or
    all blank) and lacks [First Name] or [Last Name], the split raises:
    [load_data] returns the untyped table without rows and reports the
    error, whatever else the file holds. *)
Theorem load_fails_on_non_text_names (d0 : frame) (name : series) :
  get_column d0 "Name" = Some name ->
  s_dtype name <> DObject ->
  (has_column d0 "First Name" && has_column d0 "Last Name")%bool = false ->
  exists e,
    load_from (ReadOk d0)
    = (empty_frame required_names,
       Some (StError ("Error loading data: " ++ exn_str e))).
Proof.
  intros Hname Hdt Hfl. unfold load_from, load_body, read_and_clean, bind.
  unfold split_legacy_name.
  set (data := drop_columns d0 (filter is_unnamed (columns d0))).
  assert (Hget : get_column data "Name" = Some name).
  { unfold data. rewrite get_drop_columns; [exact Hname|].
    now apply unnamed_not_listed. }
  rewrite (get_column_some _ _ _ Hget).
  assert (Hhas : forall c, is_unnamed c = false -> has_column data c = has_column d0 c).
  { intros c Hc. unfold data. rewrite has_drop_columns, unnamed_not_listed by exact Hc.
    apply andb_true_r. }
  rewrite (Hhas "First Name" eq_refl), (Hhas "Last Name" eq_refl).
  rewrite <- negb_andb, Hfl. cbn [negb]. rewrite Hget. unfold bind.
  unfold str_accessor.
  destruct (dtype_eqb (s_dtype name) DObject) eqn:E.
  - exfalso. apply Hdt. now destruct (s_dtype name).
  - cbn [andb]. eexists. reflexivity.
Qed.

Lemma load_fails_on_non_text_names_witness :
  exists e,
    load_from (ReadOk (mkFrame 1 [("Customer ID", mkSeries Dint64 [VInt 1]);
                                  ("Name", mkSeries Dint64 [VInt 42])]))
    = (empty_frame required_names,
       Some (StError ("Error loading data: " ++ exn_str e))).
Proof.
  apply (load_fails_on_non_text_names _ (mkSeries Dint64 [VInt 42]));
    [reflexivity | discriminate | reflexivity].
Defined.

Lemma assoc_write_other (w : world) (p q content : string) :
  q <> p -> assoc q (files (write_file w p content)) = assoc q (files w).
Proof.
  intros Hne. unfold write_file. cbn [files assoc].
  destruct (String.eqb q p) eqn:E; [apply String.eqb_eq in E; congruence|].
  apply (assoc_filter_key (fun k => negb (String.eqb p k))).
  apply negb_true_iff, String.eqb_neq. congruence.
Qed.

(** X22.  Saving.  On a path that can be written, [save_data] returns normally;
    the file at the path then holds the text of the table, every other
    file is as it was, the page shows the success, and a later read of the
    path parses that text.  On a path that cannot be written it raises, no
    file changes, and the page shows the error it raises. *)
Theorem save_writes_or_raises (df : frame) (file_path : string) (w : world) :
  let r := fst (save_data df file_path w) in
  let w' := snd (save_data df file_path w) in
  (can_write w file_path = true ->
     r = inr tt /\
     assoc file_path (files w') = Some (Csv.to_csv df) /\
     (forall q, q <> file_path -> assoc q (files w') = assoc q (files w)) /\
     page w' = StSuccess ("Data successfully saved to " ++ file_path) :: page w /\
     read_storage w' file_path
     = match Csv.read_csv (Csv.to_csv df) with
       | inr d => ReadOk d
       | inl e => ReadRaises e
       end) /\
  (can_write w file_path = false ->
     files w' = files w /\
     exists e, r = inl e /\
       page w' = StError ("Error saving data to " ++ file_path ++ ": " ++ exn_str e)
                 :: page w).
Proof.
  cbv zeta. unfold save_data. split; intros H; rewrite H; cbn [fst snd].
  - split; [reflexivity|]. split.
    { cbn [show write_file files assoc]. now rewrite String.eqb_refl. }
    split.
    { intros q Hq. cbn [show files]. now apply assoc_write_other. }
    split; [reflexivity|].
    unfold read_storage. unfold can_write in H.
    apply andb_true_iff in H. destruct H as [H _].
    apply negb_true_iff in H. rewrite H.
    cbn [show write_file files assoc]. now rewrite String.eqb_refl.
  - split; [reflexivity|]. eexists. split; reflexivity.
Qed.

(** ** [load_data]: the shape of the table returned *)

Lemma drop_columns_wf (d : frame) (names : list string) :
  frame_wf d -> frame_wf (drop_columns d names).
Proof.
  unfold frame_wf, drop_columns. cbn [cols nrows]. intros H.
  apply Forall_forall. intros kv Hin. apply filter_In in Hin.
  rewrite Forall_forall in H. now apply H.
Qed.

Lemma replace_assoc_In {A} (name : string) (v : A) (l : list (string * A))
      (kv : string * A) :
  In kv (replace_assoc name v l) -> In kv l \/ snd kv = v.
Proof.
  induction l as [|[k x] l IH]; simpl; [tauto|].
  intros [H|H].
  - destruct (String.eqb name k); subst kv; simpl; auto.
  - destruct (IH H); auto.
Qed.

Lemma set_column_wf (d : frame) (name : string) (s : series) :
  frame_wf d -> List.length (s_cells s) = nrows d ->
  frame_wf (set_column d name s).
Proof.
  unfold frame_wf, set_column. intros H Hs.
  destruct (has_column d name); cbn [cols nrows].
  - apply Forall_forall. intros kv Hin. apply replace_assoc_In in Hin.
    destruct Hin as [Hin| ->]; [|exact Hs].
    rewrite Forall_forall in H. now apply H.
  - apply Forall_app. split; [exact H|]. constructor; [exact Hs | constructor].
Qed.

Lemma column_length (d : frame) (c : string) (s : series) :
  frame_wf d -> get_column d c = Some s -> List.length (s_cells s) = nrows d.
Proof.
  intros H Hg. unfold frame_wf in H. rewrite Forall_forall in H.
  exact (H _ (assoc_In _ _ _ Hg)).
Qed.

Lemma str_accessor_cells (s : series) (parts : list value) :
  str_accessor s = inr parts -> parts = s_cells s.
Proof.
  unfold str_accessor. destruct (_ && _)%bool; [|discriminate].
  intros H. now inversion H.
Qed.

Lemma split_legacy_wf (data data' : frame) :
  frame_wf data -> split_legacy_name data = inr data' -> frame_wf data'.
Proof.
  intros Hwf. unfold split_legacy_name, bind, ret.
  destruct (has_column data "Name"); [|intros H; inversion H; now subst].
  destruct (negb (has_column data "First Name")
            || negb (has_column data "Last Name"))%bool.
  - destruct (get_column data "Name") as [name|] eqn:En; [|discriminate].
    destruct (str_accessor name) as [e|parts] eqn:Ep; [discriminate|].
    intros H. inversion H. subst data'. apply drop_columns_wf.
    apply str_accessor_cells in Ep. subst parts.
    pose proof (column_length _ _ _ Hwf En) as Hlen.
    apply set_column_wf; [apply set_column_wf; [exact Hwf|]|];
      cbn [s_cells]; rewrite length_map; [exact Hlen|].
    now rewrite set_column_nrows.
  - intros H. inversion H. subst data'. now apply drop_columns_wf.
Qed.

Lemma split_legacy_names (data data' : frame) (c : string) :
  split_legacy_name data = inr data' ->
  In c (columns data') ->
  In c (columns data) \/ c = "First Name" \/ c = "Last Name".
Proof.
  unfold split_legacy_name, bind, ret.
  destruct (has_column data "Name"); [|intros H; inversion H; now left].
  destruct (negb (has_column data "First Name")
            || negb (has_column data "Last Name"))%bool.
  - destruct (get_column data "Name") as [name|]; [|discriminate].
    destruct (str_accessor name) as [e|parts]; [discriminate|].
    intros H Hin. inversion H. subst data'.
    apply drop_columns_names in Hin. destruct Hin as [Hin _].
    apply set_column_names in Hin. destruct Hin as [Hin|Hin]; [|auto].
    apply set_column_names in Hin. destruct Hin as [Hin|Hin]; auto.
  - intros H Hin. inversion H. subst data'.
    apply drop_columns_names in Hin. now left.
Qed.

Lemma mapM_length {A B} (f : A -> result B) (l : list A) (l' : list B) :
  mapM f l = inr l' -> List.length l' = List.length l.
Proof.
  revert l'. induction l as [|a l IH]; intros l'; simpl.
  - intros H. now inversion H.
  - unfold bind, ret. destruct (f a) as [e|b]; [discriminate|].
    destruct (mapM f l) as [e|bs]; [discriminate|].
    intros H. inversion H. simpl. f_equal. now apply IH.
Qed.

Lemma ensured_length (data : frame) (c : string) (dt : dtype) :
  frame_wf data -> List.length (s_cells (ensured data c dt)) = nrows data.
Proof.
  intros Hwf. unfold ensured.
  destruct (get_column data c) as [s|] eqn:Es;
    [|cbn [empty_series s_cells]; apply repeat_length].
  destruct (astype dt s) as [e|s'] eqn:Ea;
    [cbn [empty_series s_cells]; apply repeat_length|].
  unfold astype, bind, ret in Ea.
  destruct (mapM (cast_cell dt) (s_cells s)) as [e|cells] eqn:Em; [discriminate|].
  inversion Ea. cbn [s_cells]. rewrite (mapM_length _ _ _ Em).
  now apply (column_length data c).
Qed.

Lemma ensure_fold_wf (l : list (string * dtype)) (d : frame) :
  frame_wf d -> frame_wf (fold_left ensure_column l d).
Proof.
  revert d. induction l as [|[c dt] l IH]; intros d Hwf; cbn [fold_left];
    [exact Hwf|].
  apply IH. rewrite ensure_column_eq. apply set_column_wf; [exact Hwf|].
  now apply ensured_length.
Qed.

Lemma empty_frame_wf (names : list string) : frame_wf (empty_frame names).
Proof.
  unfold frame_wf, empty_frame. cbn [cols nrows]. apply Forall_map.
  apply Forall_forall. reflexivity.
Qed.

Lemma row_has_value_typed (d : frame) (i : nat) :
  row_has_value d i = row_not_empty (typed_row d i).
Proof.
  unfold row_has_value, row_not_empty, typed_row.
  induction (cols d) as [|kv l IH]; simpl; [reflexivity|]. now rewrite IH.
Qed.

Lemma dropna_rows (d : frame) :
  frame_wf d -> rows (dropna_all d) = filter row_not_empty (rows d).
Proof.
  intros Hwf. unfold dropna_all.
  rewrite rows_select_rows; [|exact Hwf | now rewrite length_map, length_seq].
  rewrite <- filter_mask_map. f_equal. unfold rows. rewrite map_map.
  apply map_ext. intros i. apply row_has_value_typed.
Qed.

Lemma required_not_unnamed (c : string) :
  In c required_names -> is_unnamed c = false.
Proof.
  intros H. simpl in H.
  destruct H as [<-|[<-|[<-|[<-|[<-|[<-|[<-|[]]]]]]]]; reflexivity.
Qed.

(** X23.  What a loaded table looks like.  From a rectangular table read,
    [load_data] returns a rectangular table in which no column name
    contains [Unnamed:] and no row is empty across all columns. *)
Theorem load_returns_clean_table (d0 : frame) :
  frame_wf d0 ->
  let d := fst (load_from (ReadOk d0)) in
  frame_wf d /\
  (forall c, In c (columns d) -> is_unnamed c = false) /\
  Forall (fun row => row_not_empty row = true) (rows d).
Proof.
  intros Hwf. cbv zeta.
  destruct (read_and_clean (ReadOk d0)) as [e|data] eqn:E.
  - unfold load_from, load_body, bind. rewrite E. cbn [fst].
    split; [apply empty_frame_wf|]. split.
    + intros c. rewrite empty_frame_columns. apply required_not_unnamed.
    + constructor.
  - rewrite (load_from_ok _ _ E). cbn [read_and_clean] in E.
    assert (Hwd : frame_wf data).
    { apply (split_legacy_wf _ _ (drop_columns_wf d0 _ Hwf) E). }
    assert (Hwe : frame_wf (ensure_columns data)) by now apply ensure_fold_wf.
    split; [|split].
    + unfold dropna_all. apply select_rows_wf; [exact Hwe|].
      now rewrite length_map, length_seq.
    + intros c Hc. unfold dropna_all in Hc. rewrite select_rows_columns in Hc.
      apply ensure_fold_names in Hc. destruct Hc as [Hc|Hc];
        [|now apply required_not_unnamed].
      apply (split_legacy_names _ _ c E) in Hc.
      destruct Hc as [Hc|[->| ->]]; [|reflexivity|reflexivity].
      apply drop_columns_names in Hc. destruct Hc as [Hin Hm].
      destruct (is_unnamed c) eqn:Eu; [|reflexivity].
      assert (Hl : In c (filter is_unnamed (columns d0))).
      { apply filter_In. auto. }
      apply mem_In in Hl. congruence.
    + rewrite (dropna_rows _ Hwe). apply Forall_forall. intros row Hrow.
      apply filter_In in Hrow. tauto.
Qed.

Lemma load_returns_clean_table_witness :
  let d := fst (load_from (ReadOk table_with_index)) in
  frame_wf d /\
  (forall c, In c (columns d) -> is_unnamed c = false) /\
  Forall (fun row => row_not_empty row = true) (rows d).
Proof.
  apply load_returns_clean_table. repeat constructor.
Defined.

(** ** [save_data] then [load_data] *)

(** C5 at a table with one valid customer whose phone number is [007]:
    the file written holds [007], which [read_csv] reads as the integer 7
    and the coercion to [object] leaves an integer; the record loaded back
    has another phone number, of another type. *)
Example save_then_load_changes_phone :
  let w := snd (save_data leading_zeros "data.csv" empty_world) in
  let d := fst (load_data w "data.csv") in
  cell leading_zeros "Phone" 0 = Some (VStr "007") /\
  assoc "data.csv" (files w)
  = Some (line schema_header ++ line "1;Jane;Doe;jane@doe.org;007;Active;100.5") /\
  cell d "Phone" 0 = Some (VInt 7) /\
  column_dtype d "Phone" = Some DObject.
Proof. vm_compute. repeat split; reflexivity. Qed.

(** ** [app.py]: the conversation *)

Lemma history_messages_length (i : nat) (history : list turn) :
  List.length (history_messages i history) = List.length history.
Proof.
  revert i. induction history as [|t r IH]; intros i; simpl; [reflexivity|].
  now rewrite IH.
Qed.

Lemma history_messages_nth (k : nat) (history : list turn) (i : nat) (t : turn) :
  nth_error history i = Some t ->
  nth_error (history_messages k history) i
  = Some (if Nat.eqb (Nat.modulo (k + i) 2) 0
          then mkMsg RUser (turn_user t)
          else mkMsg RAssistant (turn_martina t)).
Proof.
  revert k i. induction history as [|t0 r IH]; intros k [|i] H;
    try discriminate.
  - inversion H. subst. cbn [history_messages nth_error].
    now rewrite Nat.add_0_r.
  - cbn [history_messages nth_error]. cbn [nth_error] in H.
    rewrite (IH (S k) i H). now rewrite Nat.add_succ_comm.
Qed.

(** X24.  The messages sent.  The conversation is the role description, the
    context of the table, one message per entry of the history and the new
    message.  An entry at an even position gives the text of the user
    only, an entry at an odd position the text of the assistant only: of
    every exchange the history holds, one half is not sent. *)
Theorem conversation_shape (render : frame -> string) (message : string)
        (data : frame) (history : list turn) :
  let conv := conversation render message data history in
  List.length conv = (List.length history + 3)%nat /\
  nth_error conv 0 = Some (mkMsg RSystem system_prompt) /\
  nth_error conv 1 = Some (mkMsg RSystem (crm_context render data)) /\
  nth_error conv (List.length history + 2) = Some (mkMsg RUser message) /\
  forall i t, nth_error history i = Some t ->
    nth_error conv (i + 2)
    = Some (if Nat.eqb (Nat.modulo i 2) 0
            then mkMsg RUser (turn_user t)
            else mkMsg RAssistant (turn_martina t)).
Proof.
  cbv zeta. unfold conversation. cbn [app insert_second].
  split; [|split; [reflexivity|split; [reflexivity|split]]].
  - cbn [List.length]. rewrite length_app, history_messages_length.
    cbn [List.length]. lia.
  - rewrite Nat.add_comm. cbn [Nat.add nth_error].
    rewrite nth_error_app2 by (rewrite history_messages_length; lia).
    now rewrite history_messages_length, Nat.sub_diag.
  - intros i t Ht. rewrite Nat.add_comm. cbn [Nat.add nth_error].
    rewrite nth_error_app1.
    + apply (history_messages_nth 0 history i t Ht).
    + rewrite history_messages_length. apply nth_error_Some. congruence.
Qed.

(** X25.  An exchange and the next request.  [main] stores the question with the
    text [chat_with_martina] returned, an error text included, as one entry
    at the end of the history.  In the next request that entry gives one
    message: the question when the entry sits at an even position, the
    stored reply otherwise. *)
Theorem chat_step_feeds_next_request
        (complete : list chat_message -> api_result) (render : frame -> string)
        (user_input next_message : string) (data : frame) (history : list turn) :
  let reply :=
    match complete (conversation render user_input data history) with
    | ApiReply content => strip content
    | ApiOpenAIError msg => "OpenAI API Error: " ++ msg
    | ApiOtherError msg => "Unexpected error: " ++ msg
    end in
  let history' := chat_step complete render user_input data history in
  history' = (history ++ [mkTurn user_input reply])%list /\
  nth_error (conversation render next_message data history')
            (List.length history + 2)
  = Some (if Nat.eqb (Nat.modulo (List.length history) 2) 0
          then mkMsg RUser user_input
          else mkMsg RAssistant reply).
Proof.
  cbv zeta.
  assert (Hh : chat_step complete render user_input data history
               = (history ++ [mkTurn user_input
                    match complete (conversation render user_input data history) with
                    | ApiReply content => strip content
                    | ApiOpenAIError msg => "OpenAI API Error: " ++ msg
                    | ApiOtherError msg => "Unexpected error: " ++ msg
                    end])%list).
  { unfold chat_step, chat_with_martina.
    now destruct (complete (conversation render user_input data history)). }
  split; [exact Hh|]. rewrite Hh.
  unfold conversation. cbn [app insert_second].
  rewrite Nat.add_comm. cbn [Nat.add nth_error].
  rewrite nth_error_app1
    by (rewrite history_messages_length, length_app; cbn [List.length]; lia).
  rewrite (history_messages_nth 0 _ (List.length history)
             (mkTurn user_input
                match complete (conversation render user_input data history) with
                | ApiReply content => strip content
                | ApiOpenAIError msg => "OpenAI API Error: " ++ msg
                | ApiOtherError msg => "Unexpected error: " ++ msg
                end)).
  - reflexivity.
  - rewrite nth_error_app2 by lia. now rewrite Nat.sub_diag.
Qed.

(** ** [app.py]: the filter of the update and delete pages *)

Lemma re_match_here_ci_plain (pat s : string) :
  re_match_here_ci (map RChar (list_ascii_of_string pat)) s
  = Text.prefixb (Text.lower pat) (Text.lower s).
Proof.
  revert s. induction pat as [|c r IH]; intros s; simpl; [reflexivity|].
  destruct s as [|b s]; [reflexivity|]. simpl. now rewrite IH.
Qed.

Lemma re_search_ci_plain (pat s : string) :
  re_search_ci (map RChar (list_ascii_of_string pat)) s
  = Text.contains (Text.lower pat) (Text.lower s).
Proof.
  induction s as [|b s IH].
  - cbn [re_search_ci Text.lower Text.contains].
    now rewrite re_match_here_ci_plain.
  - cbn [re_search_ci Text.lower Text.contains].
    rewrite re_match_here_ci_plain, IH. reflexivity.
Qed.

Lemma nth_repeat_lt {A} (x d : A) (n i : nat) :
  (i < n)%nat -> nth i (repeat x n) d = x.
Proof.
  revert i. induction n as [|n IH]; intros [|i] H; simpl; try lia; auto.
  apply IH. lia.
Qed.

(** X26.  The [Select] column is searched too.  The pages filter a copy of the
    table that has a [Select] column holding [False], and the filter reads
    every column as text: a literal query contained in [false], whatever
    its case, keeps every row of a rectangular table. *)
Theorem page_filter_matches_select_column (data : frame) (search_query : string) :
  frame_wf data ->
  search_query <> EmptyString ->
  re_plain search_query = true ->
  Text.contains (Text.lower search_query) "false" = true ->
  exists shown,
    page_filter data search_query = Some shown /\
    rows shown = rows (display_data data).
Proof.
  intros Hwf Hne Hp Hc. unfold page_filter.
  apply String.eqb_neq in Hne. rewrite Hne, (re_compile_plain _ Hp).
  eexists. split; [reflexivity|].
  set (display := display_data data).
  assert (Hwd : frame_wf display).
  { apply set_column_wf; [exact Hwf|]. cbn [s_cells]. apply repeat_length. }
  rewrite rows_select_rows;
    [|exact Hwd | now rewrite length_map, rows_length].
  rewrite filter_mask_map. apply filter_all.
  intros row Hrow. unfold rows in Hrow. apply in_map_iff in Hrow.
  destruct Hrow as (i & <- & Hi). apply in_seq in Hi.
  unfold row_any_text. apply existsb_exists.
  exists (Dbool, VBool false). split.
  - unfold typed_row. apply in_map_iff.
    exists ("Select", mkSeries Dbool (repeat (VBool false) (nrows data))).
    split.
    + cbn [snd s_dtype s_cells]. f_equal. apply nth_repeat_lt.
      unfold display, display_data in Hi. rewrite set_column_nrows in Hi. lia.
    + apply assoc_In. apply get_set_column_same.
  - cbn [fst snd str_form Csv.format_cell]. rewrite re_search_ci_plain.
    exact Hc.
Qed.

Lemma page_filter_matches_select_column_witness :
  exists shown,
    page_filter two_customers "AL" = Some shown /\
    rows shown = rows (display_data two_customers).
Proof.
  apply page_filter_matches_select_column;
    [repeat constructor | discriminate | reflexivity | reflexivity].
Defined.
